(** * highrise-slack-webhook: the synchronisation cycle of [lib/sync.js]

    A shallow embedding of [sync], [filterRecord], [sendWebhook],
    [formatWebhook], [getSubject], [parseBody], [truncate], [getSubjectPath]
    and [cmp], followed by the properties of the cycle.

    Conventions of the embedding.
    - A JavaScript [Date] is the integer number of milliseconds since the
      epoch ([Z]); [a > b] on dates is [>] on those integers.
    - A string is a [string] of bytes; identifiers ([id], [authorId],
      [subjectId]) are kept as the strings that the code concatenates
      into paths and links.
    - A Node callback [cb(err, value)] is a [result]; an exception thrown
      inside a callback is [Uncaught].
    - The Highrise client, the mail parser and the HTTP transport are
      collaborators of [sync.js]; they are parameters of the model
      ([World]), as is the module-level [config]. *)

From Stdlib Require Import ZArith QArith String Ascii Lia.
From stdpp Require Import base list strings sorting.
From Equations Require Import Equations.

Local Open Scope string_scope.
Local Open Scope list_scope.
Local Open Scope Z_scope.

(** ** Values *)

(** A JavaScript [Error] value handed to a callback as [err]. *)
Inductive error : Type :=
| Error (message : string).

(** The two ways a Node callback is invoked: [cb(null, value)] or
    [cb(err)]. *)
Inductive result (A : Type) : Type :=
| Ok (value : A)
| Err (err : error).
Arguments Ok {A} value.
Arguments Err {A} err.

(** What becomes of a continuation: its callback was invoked, or a
    [TypeError] escaped while it ran (reading a property of [undefined]),
    or its callback has not been invoked. *)
Inductive completion (A : Type) : Type :=
| Called (r : result A)
| Uncaught (what : string)
| NeverCalled.
Arguments Called {A} r.
Arguments Uncaught {A} what.
Arguments NeverCalled {A}.

(** An entity returned by [client.get] for a user or a subject; [sync.js]
    reads [user.name] and [subject.id]. *)
Module Entity.
Record t : Type := Build { id : string; name : string }.
End Entity.

(** A recording as fetched, with the two fields [sendWebhook] writes. *)
Module Recording.
Record t : Type := Build {
  id : string;
  type : string;
  body : string;
  title : option string;
  authorId : string;
  subjectId : string;
  subjectType : string;
  subjectName : string;
  visibleTo : string;
  groupId : Z;
  createdAt : Z;
  updatedAt : Z;
  author : option Entity.t;
  subject : option Entity.t
}.

(** [recording.author = user] *)
Definition set_author (user : Entity.t) (r : t) : t :=
  Build (id r) (type r) (body r) (title r) (authorId r) (subjectId r)
        (subjectType r) (subjectName r) (visibleTo r) (groupId r)
        (createdAt r) (updatedAt r) (Some user) (subject r).

(** [recording.subject = subject] *)
Definition set_subject (s : Entity.t) (r : t) : t :=
  Build (id r) (type r) (body r) (title r) (authorId r) (subjectId r)
        (subjectType r) (subjectName r) (visibleTo r) (groupId r)
        (createdAt r) (updatedAt r) (author r) (Some s).

(** The recording once both callbacks of [sendWebhook] have written to
    it. *)
Definition enrich (user s : Entity.t) (r : t) : t := set_subject s (set_author user r).

(** The fields that come from the fetch, in declaration order. *)
Definition fetched (r : t) :=
  (id r, type r, body r, title r, authorId r, subjectId r,
   subjectType r, subjectName r, visibleTo r, groupId r,
   createdAt r, updatedAt r).
End Recording.

#[global] Instance recording_inhabited : Inhabited Recording.t :=
  populate (Recording.Build "" "" "" None "" "" "" "" "" 0 0 0 None None).

(** One element of [payload.attachments]. [ts] is the exact quotient
    [createdAt / 1000]; JavaScript holds its nearest double. *)
Module Attachment.
Record t : Type := Build {
  fallback : string;
  text : string;
  ts : Q;
  mrkdwn_in : list string;
  title : option string;
  title_link : option string
}.
End Attachment.

Module Payload.
Record t : Type := Build {
  text : string;
  username : string;
  icon_url : string;
  attachments : list Attachment.t
}.
End Payload.

(** The module-level [config] object (the token is only used to build the
    client). *)
Record Config : Type := {
  highriseUrl : string;
  slackUrl : string;
  groups : list Z;
  showEveryone : bool
}.

(** The parsed mail handed over by [simpleParser]; [mail.text] may be
    [undefined]. *)
Record Mail : Type := { mail_text : option string }.

(** The response of the webhook endpoint; [sync.js] does not look at it. *)
Record Response : Type := { statusCode : Z }.

(** The collaborators of [sync.js].
    - [client_recordings since] is [client.get('recordings.xml', {since})];
    - [client_get path] is [client.get(path)] for a single entity;
    - [simpleParser] is mailparser's;
    - [request url payload] is the POST of [payload] to [url];
    - [object_prototype key] is what the runtime's [Object.prototype] holds
      under [key]: [None] when it has no member of that name, otherwise
      the text the member (an object or a function, so a truthy value)
      becomes in a template literal.
    Each of the first four answers its callback once, and answers the same
    request the same way throughout a cycle. *)
Record World : Type := {
  client_recordings : Z -> result (list Recording.t);
  client_get : string -> result Entity.t;
  simpleParser : string -> result Mail;
  request : string -> Payload.t -> result Response;
  object_prototype : string -> option string
}.

(** A request that left the process. The lists of requests below are kept
    task by task: the requests of one [sendWebhook] call stand together,
    in the order that call issues them, and before those of the next
    call. POSTs are in the order they are made. The fetches of a task that
    was skipped may in fact leave later than the list shows: when the user
    fetch fails first the series moves on, and a retry of the subject
    under [companies] then follows the requests of the next task. *)
Inductive event : Type :=
| Get (path : string)
| GetRecordings (since : Z)
| Post (url : string) (payload : Payload.t).

(** Matching on a value while keeping the equation that names it. *)
Definition inspect {A : Type} (a : A) : { b : A | a = b } := exist _ a eq_refl.

(** ** The JavaScript library functions the code calls *)

(** Truthiness of a string that may be [undefined]: the empty string and
    [undefined] are falsy. *)
Definition truthy (s : option string) : bool :=
  match s with
  | Some EmptyString | None => false
  | Some _ => true
  end.

(** [a || b], where [b] is a string. *)
Definition or_else (a : option string) (b : string) : string :=
  match a with
  | Some s => if truthy a then s else b
  | None => b
  end.

(** [String.prototype.split] with a one-character separator. The array it
    returns is never empty. *)
Fixpoint split (sep : ascii) (s : string) : list string :=
  match s with
  | EmptyString => [EmptyString]
  | String c s' =>
      if Ascii.eqb c sep then EmptyString :: split sep s'
      else match split sep s' with
           | w :: ws => String c w :: ws
           | [] => [String c EmptyString]
           end
  end.

(** [Array.prototype.indexOf] on an array of numbers: the first index
    holding [x], or [-1]. *)
Fixpoint indexOf (l : list Z) (x : Z) : Z :=
  match l with
  | [] => -1
  | y :: l' =>
      if Z.eqb y x then 0
      else let i := indexOf l' x in if Z.eqb i (-1) then -1 else i + 1
  end.

(** [Array.prototype.includes] on an array of strings. *)
Fixpoint includes (l : list string) (x : string) : bool :=
  match l with
  | [] => false
  | y :: l' => String.eqb y x || includes l' x
  end.

(** [Array.prototype.sort(compare)]: the sort is stable, and with a
    consistent comparator the stable sorted arrangement is unique. [insert]
    puts [x], which came before the elements of [l], ahead of the first
    element it does not exceed. *)
Section Sort.
Context {A : Type} (compare : A -> A -> Z).

Fixpoint insert_sorted (x : A) (l : list A) : list A :=
  match l with
  | [] => [x]
  | y :: l' =>
      if compare x y >? 0 then y :: insert_sorted x l' else x :: y :: l'
  end.

Fixpoint sort (l : list A) : list A :=
  match l with
  | [] => []
  | x :: l' => insert_sorted x (sort l')
  end.
End Sort.

(** ** [sync.js] *)

(** [recordingTypes]: an object used as a map, with its keys in insertion
    order. *)
Definition recordingTypes : list (string * string) :=
  [("email", "an email"); ("note", "a note"); ("comment", "a comment")].

(** [Object.keys(recordingTypes)] *)
Definition recordingTypes_keys : list string := map fst recordingTypes.

(** The own property [key] of an object literal, [None] when it has none.
    A property read [o[key]] goes on to [Object.prototype] then; see
    [recordingType]. *)
Fixpoint lookup_own (o : list (string * string)) (key : string) : option string :=
  match o with
  | [] => None
  | (k, v) :: o' => if String.eqb k key then Some v else lookup_own o' key
  end.

(** [cmp(prop)] *)
Definition cmp {A : Type} (prop : A -> Z) (a b : A) : Z :=
  if prop a >? prop b then 1 else if prop a <? prop b then -1 else 0.

(** The order [cmp(prop)] sorts into. *)
Definition ascending {A : Type} (prop : A -> Z) (a b : A) : Prop := prop a <= prop b.

(** [getSubjectPath] *)
Definition getSubjectPath (type : string) : string :=
  if String.eqb type "Party" then "people"
  else if String.eqb type "Deal" then "deals"
  else if String.eqb type "Kase" then "kases"
  else "people".

(** [truncate]: the cap is commented out in the source. *)
Definition truncate (text : string) : string := text.

Section Model.
Variable config : Config.
Variable world : World.

(** [filterRecord], a closure over [lastCheck]. *)
Definition filterRecord (lastCheck : Z) (record : Recording.t) : bool :=
  includes recordingTypes_keys (Recording.type record)
  && ((String.eqb (Recording.visibleTo record) "Everyone" && showEveryone config)
      || (indexOf (groups config) (Recording.groupId record) >? -1))
  && (Recording.createdAt record >? lastCheck).

(** [getSubject]: the answer handed to [cb], with the requests made. The
    self-call happens only from the path [people], to [companies]. *)
Definition retries_left (subjectPath : string) : nat :=
  if String.eqb subjectPath "people" then 1%nat else 0%nat.

Equations getSubject (subjectId subjectPath : string)
  : result Entity.t * list event by wf (retries_left subjectPath) lt :=
  getSubject subjectId subjectPath
    with client_get world (subjectPath +:+ "/" +:+ subjectId +:+ ".xml") := {
    | Ok subject =>
        (Ok subject, [Get (subjectPath +:+ "/" +:+ subjectId +:+ ".xml")])
    | Err err with inspect (String.eqb subjectPath "people") := {
      | exist _ true Hp =>
          (* 'Party' could be either a person or company *)
          let '(r, evs) := getSubject subjectId "companies" in
          (r, Get (subjectPath +:+ "/" +:+ subjectId +:+ ".xml") :: evs)
      | exist _ false _ =>
          (Err err, [Get (subjectPath +:+ "/" +:+ subjectId +:+ ".xml")])
      }
    }.
Next Obligation.
  unfold retries_left. rewrite Hp. simpl. lia.
Defined.

(** [recordingTypes[type] || 'a note'], as a template literal prints it.
    The read finds the own property, one of the three labels, or else the
    member of [Object.prototype] of that name, which is truthy and prints
    as the runtime has it; only when there is neither is it [undefined]
    and the label ['a note']. *)
Definition recordingType (type : string) : string :=
  match lookup_own recordingTypes type with
  | Some label => or_else (Some label) "a note"
  | None =>
      match object_prototype world type with
      | Some printed => printed
      | None => "a note"
      end
  end.

(** The [const body] of [parseBody]: the raw body under a plain-text
    content-type header and an empty line. *)
Definition mime_source (recording : Recording.t) : string :=
  "Content-Type: text/plain; charset=UTF-8" +:+ String "010" (String "010" "")
  +:+ Recording.body recording.

(** [parseBody] *)
Definition parseBody (recording : Recording.t) : result string :=
  if String.eqb (Recording.type recording) "note" then Ok (Recording.body recording)
  else
    let body := mime_source recording in
    match simpleParser world body with
    | Err err => Err err
    | Ok mail =>
        Ok (or_else (Some (or_else (mail_text mail) (Recording.body recording))) "")
    end.

(** [formatWebhook]. [recording.author.name] is read before the body is
    parsed, [recording.subject.id] after. *)
Definition formatWebhook (recording : Recording.t) : completion Payload.t :=
  match Recording.author recording with
  | None => Uncaught "Cannot read property 'name' of undefined"
  | Some author =>
      let authorFirstName := hd "" (split " " (Entity.name author)) in
      let recordingType := recordingType (Recording.type recording) in
      match parseBody recording with
      | Err err => Called (Err err)
      | Ok body =>
          let truncatedBody := truncate body in
          let recordingLink :=
            highriseUrl config +:+ Recording.type recording +:+ "s/"
            +:+ Recording.id recording in
          match Recording.subject recording with
          | None => Uncaught "Cannot read property 'id' of undefined"
          | Some subject =>
              let subjectLink :=
                highriseUrl config +:+ getSubjectPath (Recording.subjectType recording)
                +:+ "/" +:+ Entity.id subject in
              let body :=
                if String.eqb truncatedBody body then body
                else truncatedBody +:+ " <" +:+ recordingLink +:+ "|Read more…>" in
              let titled := truthy (Recording.title recording) in
              Called (Ok (Payload.Build
                (authorFirstName +:+ " shared <" +:+ recordingLink +:+ "|"
                 +:+ recordingType +:+ "> " +:+ "about <" +:+ subjectLink +:+ "|"
                 +:+ Recording.subjectName recording +:+ ">")
                "highrise"
                "http://68.media.tumblr.com/avatar_079aaa3d2066_128.png"
                [Attachment.Build
                   (Recording.body recording)
                   body
                   (Recording.createdAt recording # 1000)
                   ["text"; "pretext"]
                   (if titled then Recording.title recording else None)
                   (if titled
                    then Some (highriseUrl config +:+ Recording.type recording
                               +:+ "s/" +:+ Recording.id recording)
                    else None)]))
          end
      end
  end.

(** The local state of one [sendWebhook] call: the counter [pending], the
    recording it writes to, what [once(cb)] has been called with, and the
    requests made so far. *)
Record task : Type := Task {
  pending : Z;
  recording : Recording.t;
  outcome : completion (option Response);
  requests : list event
}.

(** [cb(...)] through [once]: only the first invocation counts. *)
Definition invoke (r : result (option Response)) (st : task) : task :=
  match outcome st with
  | NeverCalled => Task (pending st) (recording st) (Called r) (requests st)
  | _ => st
  end.

(** The inner [done] of [sendWebhook]. *)
Definition done (err : option error) (st : task) : task :=
  match err with
  | Some _ =>
      (* We just skip over records with an error, rather than stopping *)
      invoke (Ok None) st
  | None =>
      let st := Task (pending st - 1) (recording st) (outcome st) (requests st) in
      if pending st >? 0 then st
      else
        match formatWebhook (recording st) with
        | Called (Err err) => invoke (Err err) st
        | Called (Ok payload) =>
            let st := Task (pending st) (recording st) (outcome st)
                           (requests st ++ [Post (slackUrl config) payload]) in
            match request world (slackUrl config) payload with
            | Err err => invoke (Err err) st
            | Ok response => invoke (Ok (Some response)) st
            end
        | Uncaught what => Task (pending st) (recording st) (Uncaught what) (requests st)
        | NeverCalled => st
        end
  end.

(** The callback of the user fetch. *)
Definition on_user (res : result Entity.t) (st : task) : task :=
  match res with
  | Err err => done (Some err) st
  | Ok user =>
      done None (Task (pending st) (Recording.set_author user (recording st))
                      (outcome st) (requests st))
  end.

(** The callback of [getSubject]. *)
Definition on_subject (res : result Entity.t) (st : task) : task :=
  match res with
  | Err err => done (Some err) st
  | Ok subject =>
      done None (Task (pending st) (Recording.set_subject subject (recording st))
                      (outcome st) (requests st))
  end.

(** [sendWebhook]: both fetches are issued, then their callbacks run in
    one of the two possible orders ([user_first]). [requests] lists what
    the call sends, the fetches first; it does not tell when a retry under
    [companies] leaves relative to the requests of other calls. *)
Definition sendWebhook (user_first : bool) (r : Recording.t) : task :=
  let user := client_get world ("users/" +:+ Recording.authorId r +:+ ".xml") in
  let subject :=
    getSubject (Recording.subjectId r) (getSubjectPath (Recording.subjectType r)) in
  let st := Task 2 r NeverCalled
                 (Get ("users/" +:+ Recording.authorId r +:+ ".xml") :: snd subject) in
  if user_first then on_subject (fst subject) (on_user user st)
  else on_user user (on_subject (fst subject) st).

(** [run(tasks, done)] of run-series, for the tasks
    [filteredData.map(r => cb => sendWebhook(r, cb))]. The array [data]
    holds the fetched objects; a task is the index of its object in
    [data], which [sendWebhook] reads and writes in place. The series
    stops at the first task that reports an error. The requests are
    listed task by task. *)
Fixpoint run (order : nat -> bool) (tasks : list nat) (data : list Recording.t)
  : list Recording.t * completion unit * list event :=
  match tasks with
  | [] => (data, Called (Ok tt), [])
  | i :: rest =>
      let st := sendWebhook (order i) (data !!! i) in
      let data := <[i := recording st]> data in
      match outcome st with
      | Called (Ok _) =>
          let '(data, c, evs) := run order rest data in
          (data, c, requests st ++ evs)
      | Called (Err err) => (data, Called (Err err), requests st)
      | Uncaught what => (data, Uncaught what, requests st)
      | NeverCalled => (data, NeverCalled, requests st)
      end
  end.

(** [filteredData], as indices into [data]:
    [data.filter(filterRecord).sort(cmp('createdAt'))]. *)
Definition filtered (lastCheck : Z) (data : list Recording.t) : list nat :=
  sort (cmp (fun i => Recording.createdAt (data !!! i)))
       (List.filter (fun i => filterRecord lastCheck (data !!! i))
                    (seq 0 (length data))).

(** [sync]: what [cb] is called with, and the requests of the cycle.
    [order i] tells which of the two fetches of the recording at index
    [i] answers first. *)
Definition sync (order : nat -> bool) (lastCheck : Z) : completion Z * list event :=
  match client_recordings world lastCheck with
  | Err err => (Called (Err err), [GetRecordings lastCheck])
  | Ok data =>
      let filteredData := filtered lastCheck data in
      if (length filteredData =? 0)%nat
      then (Called (Ok lastCheck), [GetRecordings lastCheck])
      else
        let '(data, c, evs) := run order filteredData data in
        (match c with
         | Called (Err err) => Called (Err err)
         | Called (Ok _) =>
             match sort (cmp Recording.updatedAt) data !! (length data - 1)%nat with
             | Some last => Called (Ok (Recording.updatedAt last))
             | None => Uncaught "Cannot read property 'updatedAt' of undefined"
             end
         | Uncaught what => Uncaught what
         | NeverCalled => NeverCalled
         end,
         GetRecordings lastCheck :: evs)
  end.
End Model.

(** ** The wording of the specification, for comparison

    "authorFirstName = first whitespace-delimited token of author.name":
    leading whitespace is passed over and the token ends at the next
    whitespace character. *)
Definition is_whitespace (c : ascii) : bool :=
  Ascii.eqb c " " || Ascii.eqb c "009" || Ascii.eqb c "010"
  || Ascii.eqb c "011" || Ascii.eqb c "012" || Ascii.eqb c "013".

Fixpoint until_whitespace (s : string) : string :=
  match s with
  | EmptyString => EmptyString
  | String c s' => if is_whitespace c then EmptyString else String c (until_whitespace s')
  end.

Fixpoint first_whitespace_token (s : string) : string :=
  match s with
  | EmptyString => EmptyString
  | String c s' =>
      if is_whitespace c then first_whitespace_token s'
      else String c (until_whitespace s')
  end.

(** ** Worlds to run the model in *)

Module Demo.
Definition config : Config := {|
  highriseUrl := "https://acme.highrisehq.com/";
  slackUrl := "https://hooks.slack.example/T0";
  groups := [7];
  showEveryone := true
|}.

(** An e-mail visible to everyone. *)
Definition email : Recording.t :=
  Recording.Build "42" "email" "See you on Monday." (Some "Re: visit") "1" "7" "Party"
                  "Acme Inc" "Everyone" 0 100000 150000 None None.

(** A recording of a type that is not posted. *)
Definition call : Recording.t :=
  Recording.Build "43" "call" "" None "1" "7" "Party"
                  "Acme Inc" "Everyone" 7 110000 200000 None None.

(** A comment of group 7 whose author cannot be fetched. *)
Definition comment : Recording.t :=
  Recording.Build "44" "comment" "Agreed." None "9" "8" "Deal"
                  "Big deal" "NamedGroup" 7 120000 130000 None None.

(** A note of group 7. *)
Definition note : Recording.t :=
  Recording.Build "45" "note" "Called back." None "1" "8" "Deal"
                  "Big deal" "NamedGroup" 7 120000 130000 None None.

Definition ann : Entity.t := Entity.Build "1" "Ann Lee".
Definition acme : Entity.t := Entity.Build "7" "Acme Inc".
Definition deal : Entity.t := Entity.Build "8" "Big deal".

(** Subject 7 is a company: [people/7.xml] is not found. User 9 is
    unknown. *)
Definition get (path : string) : result Entity.t :=
  if String.eqb path "users/1.xml" then Ok ann
  else if String.eqb path "companies/7.xml" then Ok acme
  else if String.eqb path "deals/8.xml" then Ok deal
  else Err (Error ("404 " +:+ path)).

(** Some members of [Object.prototype], as Node prints them. *)
Definition prototype (key : string) : option string :=
  if String.eqb key "constructor" then Some "function Object() { [native code] }"
  else if String.eqb key "toString" then Some "function toString() { [native code] }"
  else if String.eqb key "valueOf" then Some "function valueOf() { [native code] }"
  else if String.eqb key "__proto__" then Some "[object Object]"
  else None.

(** A parser that hands back what follows the header and the empty
    line. *)
Definition parser (source : string) : result Mail :=
  Ok {| mail_text := Some (substring 41 (String.length source - 41) source) |}.

Definition world : World := {|
  client_recordings := fun _ => Ok [email; call; comment];
  client_get := get;
  simpleParser := parser;
  request := fun _ _ => Ok {| statusCode := 200 |};
  object_prototype := prototype
|}.

(** A CRM that holds the e-mail only. *)
Definition world_single : World := {|
  client_recordings := fun _ => Ok [email];
  client_get := get;
  simpleParser := parser;
  request := fun _ _ => Ok {| statusCode := 200 |};
  object_prototype := prototype
|}.

(** The same CRM behind a parser that gives up. *)
Definition world_unparsable : World := {|
  client_recordings := fun _ => Ok [email; note];
  client_get := get;
  simpleParser := fun _ => Err (Error "malformed message");
  request := fun _ _ => Ok {| statusCode := 200 |};
  object_prototype := prototype
|}.

(** The same CRM in front of an endpoint that cannot be reached. *)
Definition world_unreachable : World := {|
  client_recordings := fun _ => Ok [email; note];
  client_get := get;
  simpleParser := parser;
  request := fun _ _ => Err (Error "ECONNREFUSED");
  object_prototype := prototype
|}.

(** A recording whose [updatedAt] precedes its [createdAt]. *)
Definition backdated : Recording.t :=
  Recording.Build "46" "email" "Hello" None "1" "7" "Party"
                  "Acme Inc" "Everyone" 0 100000 10000 None None.

Definition world_backdated : World := {|
  client_recordings := fun _ => Ok [backdated];
  client_get := get;
  simpleParser := parser;
  request := fun _ _ => Ok {| statusCode := 200 |};
  object_prototype := prototype
|}.

(** An enriched e-mail whose author's name has a tab between its parts
    and whose title is the empty string. *)
Definition tabbed : Entity.t :=
  Entity.Build "2" (String "A" (String "n" (String "n" (String "009" "Lee")))).

Definition untitled : Recording.t :=
  Recording.Build "47" "email" "Hello" (Some "") "2" "7" "Party"
                  "Acme Inc" "Everyone" 0 100000 150000 (Some tabbed) (Some acme).

Definition user_first (i : nat) : bool := true.

(** The payload posted for [email]. *)
Definition email_payload : Payload.t :=
  Eval vm_compute in
    match formatWebhook config world (Recording.enrich ann acme email) with
    | Called (Ok payload) => payload
    | _ => Payload.Build "" "" "" []
    end.
End Demo.

(** ** The module-level [config] and the requests of a cycle *)

(** [process.env.HIGHRISE_URL.replace(/\/?$/, '/')]. The pattern is an
    optional slash followed by the end of the input; its leftmost match is
    the last character when that is a slash, and the empty string at the
    end otherwise. *)
Fixpoint with_trailing_slash (url : string) : string :=
  match url with
  | EmptyString => "/"
  | String c rest =>
      if Ascii.eqb c "/" && String.eqb rest "" then "/"
      else String c (with_trailing_slash rest)
  end.

(** [(process.env.HIGHRISE_GROUPS || '').split(',').map(Number)], over
    JavaScript's [Number] on the fields. *)
Definition parse_groups (Number : string -> Z) (HIGHRISE_GROUPS : option string) : list Z :=
  map Number (split "," (or_else HIGHRISE_GROUPS "")).

(** The webhooks among the requests of a cycle. *)
Fixpoint posted (evs : list event) : list Payload.t :=
  match evs with
  | [] => []
  | Post _ payload :: evs' => payload :: posted evs'
  | _ :: evs' => posted evs'
  end.

(** The [createdAt] a payload was stamped with: the numerator of the [ts]
    of its attachment. *)
Definition stamped (payload : Payload.t) : Z :=
  match Payload.attachments payload with
  | a :: _ => Qnum (Attachment.ts a)
  | [] => 0
  end.

(** More values to run the model on. *)
Module Cases.
(** A comment whose author is known and whose subject is not. *)
Definition orphan : Recording.t :=
  Recording.Build "48" "comment" "Who is this?" None "1" "9" "Kase"
                  "Lost case" "NamedGroup" 7 105000 105000 None None.

(** A CRM with two postable recordings fetched out of order. *)
Definition world_two : World := {|
  client_recordings := fun _ => Ok [Demo.note; Demo.email; orphan];
  client_get := Demo.get;
  simpleParser := Demo.parser;
  request := fun _ _ => Ok {| statusCode := 200 |};
  object_prototype := Demo.prototype
|}.

(** Decimal digits only; enough of [Number] for group lists. *)
Fixpoint digits (acc : Z) (s : string) : Z :=
  match s with
  | EmptyString => acc
  | String c s' => digits (10 * acc + (Z.of_nat (nat_of_ascii c) - 48)) s'
  end.

Definition number (s : string) : Z := digits 0 s.

(** A configuration with no group named and Everyone switched off. *)
Definition config_no_groups : Config := {|
  highriseUrl := with_trailing_slash "https://acme.highrisehq.com";
  slackUrl := "https://hooks.slack.example/T0";
  groups := parse_groups number None;
  showEveryone := false
|}.

(** A note in group 0. *)
Definition ungrouped : Recording.t :=
  Recording.Build "49" "note" "Private." None "1" "8" "Deal"
                  "Big deal" "Owner" 0 120000 130000 None None.
End Cases.

(** ** Properties *)

(** *** The library functions *)

Lemma includes_In (l : list string) (x : string) :
  includes l x = true <-> In x l.
Proof.
  induction l as [|y l IH]; simpl.
  - split; [discriminate | tauto].
  - rewrite orb_true_iff, IH, String.eqb_eq. tauto.
Qed.

Lemma indexOf_lower (l : list Z) (x : Z) : -1 <= indexOf l x.
Proof.
  induction l as [|y l IH]; simpl; [lia|].
  destruct (Z.eqb y x); [lia|].
  destruct (Z.eqb_spec (indexOf l x) (-1)); lia.
Qed.

Lemma indexOf_In (l : list Z) (x : Z) :
  (indexOf l x >? -1) = true <-> In x l.
Proof.
  induction l as [|y l IH]; simpl.
  - split; [discriminate | tauto].
  - destruct (Z.eqb_spec y x) as [->|Hne].
    + split; [tauto | reflexivity].
    + pose proof (indexOf_lower l x) as Hlo.
      destruct (Z.eqb_spec (indexOf l x) (-1)) as [Heq|Hneq].
      * rewrite Heq in IH. split; [discriminate|].
        intros [H|H]; [congruence | apply IH in H; discriminate].
      * split.
        -- intros _. right. apply IH. apply Z.gtb_lt. lia.
        -- intros _. apply Z.gtb_lt. lia.
Qed.

Lemma split_nonempty (sep : ascii) (s : string) : split sep s <> [].
Proof.
  induction s as [|c s IH]; simpl; [discriminate|].
  destruct (Ascii.eqb c sep); [discriminate|].
  destruct (split sep s); [contradiction | discriminate].
Qed.

(** The part of a string before its first space character: what
    [s.split(' ')[0]] evaluates to. *)
Fixpoint before_space (s : string) : string :=
  match s with
  | EmptyString => EmptyString
  | String c s' => if Ascii.eqb c " " then EmptyString else String c (before_space s')
  end.

Lemma split_space_hd (s : string) : hd "" (split " " s) = before_space s.
Proof.
  induction s as [|c s IH]; simpl; [reflexivity|].
  destruct (Ascii.eqb c " "); [reflexivity|].
  pose proof (split_nonempty " " s) as Hne.
  destruct (split " " s) as [|w ws]; [contradiction|].
  simpl in *. now rewrite IH.
Qed.

(** [sort] rearranges its argument; with [cmp prop] the result ascends in
    [prop], so its last element has the greatest [prop]. *)
Section SortProperties.
Context {A : Type}.

Lemma insert_sorted_perm (compare : A -> A -> Z) (x : A) (l : list A) :
  Permutation (insert_sorted compare x l) (x :: l).
Proof.
  induction l as [|y l IH]; simpl; [reflexivity|].
  destruct (compare x y >? 0); [|reflexivity].
  rewrite IH. apply perm_swap.
Qed.

Lemma sort_perm (compare : A -> A -> Z) (l : list A) :
  Permutation (sort compare l) l.
Proof.
  induction l as [|x l IH]; simpl; [reflexivity|].
  rewrite insert_sorted_perm. now constructor.
Qed.

Lemma sort_length (compare : A -> A -> Z) (l : list A) :
  length (sort compare l) = length l.
Proof. apply Permutation_length, sort_perm. Qed.

Variable prop : A -> Z.

Lemma cmp_gt (a b : A) : (cmp prop a b >? 0) = (prop a >? prop b).
Proof.
  unfold cmp. destruct (Z.gtb_spec (prop a) (prop b)); [reflexivity|].
  destruct (prop a <? prop b); reflexivity.
Qed.

Lemma insert_sorted_ascending (x : A) (l : list A) :
  StronglySorted (ascending prop) l -> StronglySorted (ascending prop) (insert_sorted (cmp prop) x l).
Proof.
  induction 1 as [|y l Hl IH Hy]; simpl.
  - repeat constructor.
  - rewrite cmp_gt. destruct (Z.gtb_spec (prop x) (prop y)) as [Hgt|Hle].
    + constructor; [assumption|].
      rewrite insert_sorted_perm. constructor; [unfold ascending; lia | assumption].
    + constructor; [now constructor|].
      constructor; [assumption|].
      eapply Forall_impl; [exact Hy|]. unfold ascending. intros; lia.
Qed.

Lemma sort_ascending (l : list A) : StronglySorted (ascending prop) (sort (cmp prop) l).
Proof.
  induction l as [|x l IH]; simpl; [constructor|].
  now apply insert_sorted_ascending.
Qed.

Lemma ascending_last (l : list A) (m : A) :
  StronglySorted (ascending prop) l -> last l = Some m ->
  forall x, In x l -> prop x <= prop m.
Proof.
  induction 1 as [|y l Hl IH Hy]; [discriminate|].
  destruct l as [|z l].
  - intros [= <-] x [<-|[]]. lia.
  - intros Hlast x [<-|Hin].
    + change (last (y :: z :: l)) with (last (z :: l)) in Hlast.
      apply last_Some_elem_of in Hlast.
      rewrite Forall_forall in Hy. now apply Hy.
    + now apply IH.
Qed.

(** [l.sort(cmp(prop))[l.length - 1]] is an element of [l] with the
    greatest [prop]. *)
Lemma sort_last_max (l : list A) :
  l <> [] ->
  exists m,
    sort (cmp prop) l !! (length l - 1)%nat = Some m
    /\ In m l
    /\ forall x, In x l -> prop x <= prop m.
Proof.
  intros Hne.
  destruct (last (sort (cmp prop) l)) as [m|] eqn:Hlast.
  - exists m. split; [|split].
    + rewrite <- (sort_length (cmp prop) l), Nat.sub_1_r, <- last_lookup.
      exact Hlast.
    + apply last_Some_elem_of, list_elem_of_In in Hlast.
      eapply Permutation_in; [apply sort_perm | exact Hlast].
    + intros x Hx. eapply ascending_last; [apply sort_ascending | exact Hlast |].
      eapply Permutation_in; [symmetry; apply sort_perm | exact Hx].
  - apply last_None in Hlast. apply (f_equal length) in Hlast.
    rewrite sort_length in Hlast. destruct l; [contradiction | discriminate].
Qed.
End SortProperties.

Section Properties.
Variable config : Config.
Variable world : World.

(** *** Record Filter *)

Lemma filterRecord_created (lastCheck : Z) (record : Recording.t) :
  filterRecord config lastCheck record = true -> lastCheck < Recording.createdAt record.
Proof.
  unfold filterRecord. rewrite !andb_true_iff. intros (_ & H). now apply Z.gtb_lt.
Qed.

(** C2. [filterRecord] accepts a record exactly when its type is one of
    email, note, comment; it is visible to Everyone while
    [config.showEveryone] is set, or its [groupId] is one of
    [config.groups]; and its [createdAt] is strictly after the
    checkpoint. In particular a record created exactly at the checkpoint
    is rejected. *)
Theorem filterRecord_iff (lastCheck : Z) (record : Recording.t) :
  (filterRecord config lastCheck record = true <->
     (Recording.type record = "email" \/ Recording.type record = "note"
      \/ Recording.type record = "comment")
     /\ ((Recording.visibleTo record = "Everyone" /\ showEveryone config = true)
         \/ In (Recording.groupId record) (groups config))
     /\ Recording.createdAt record > lastCheck)
  /\ (Recording.createdAt record = lastCheck ->
      filterRecord config lastCheck record = false).
Proof.
  unfold filterRecord. split.
  - rewrite !andb_true_iff, orb_true_iff, andb_true_iff.
    rewrite includes_In, indexOf_In, String.eqb_eq, Z.gtb_lt.
    unfold recordingTypes_keys; simpl. intuition (try lia; auto).
  - intros ->. rewrite (Z.gtb_ltb lastCheck lastCheck), Z.ltb_irrefl.
    apply andb_false_r.
Qed.

(** *** Subject Resolver *)

(** One step of [getSubject], as the source reads. *)
Lemma getSubject_step (subjectId subjectPath : string) :
  getSubject world subjectId subjectPath =
    let path := subjectPath +:+ "/" +:+ subjectId +:+ ".xml" in
    match client_get world path with
    | Ok subject => (Ok subject, [Get path])
    | Err err =>
        if String.eqb subjectPath "people"
        then (fst (getSubject world subjectId "companies"),
              Get path :: snd (getSubject world subjectId "companies"))
        else (Err err, [Get path])
    end.
Proof.
  rewrite getSubject_unfold_eq. unfold getSubject_unfold. cbn zeta.
  unfold getSubject_unfold_clause_1, inspect.
  destruct (client_get world _) as [subject|err]; [reflexivity|].
  unfold getSubject_unfold_clause_1_clause_2.
  destruct (String.eqb subjectPath "people"); [|reflexivity].
  destruct (getSubject world subjectId "companies"). reflexivity.
Qed.

(** The second attempt, on [companies], is final either way. *)
Lemma getSubject_companies (subjectId : string) :
  getSubject world subjectId "companies" =
    (client_get world ("companies/" +:+ subjectId +:+ ".xml"),
     [Get ("companies/" +:+ subjectId +:+ ".xml")]).
Proof.
  rewrite getSubject_step. cbn zeta.
  change ("companies" +:+ "/" +:+ subjectId +:+ ".xml")
    with ("companies/" +:+ subjectId +:+ ".xml").
  destruct (client_get world _); reflexivity.
Qed.

(** C6. [getSubjectPath] sends Party to people, Deal to deals, Kase to
    kases and every other type to people. [getSubject] answers with the
    entity when the fetch on the resolved path succeeds; when the path is
    people and the fetch fails it fetches companies, once, and answers
    with whatever that gives; when any other path fails it answers with
    that error after the single request. *)
Theorem getSubject_resolution (subjectId : string) :
  (getSubjectPath "Party" = "people" /\ getSubjectPath "Deal" = "deals"
   /\ getSubjectPath "Kase" = "kases"
   /\ forall type : string,
        type <> "Party" -> type <> "Deal" -> type <> "Kase" ->
        getSubjectPath type = "people")
  /\ (forall (subjectPath : string) (subject : Entity.t),
        client_get world (subjectPath +:+ "/" +:+ subjectId +:+ ".xml") = Ok subject ->
        getSubject world subjectId subjectPath =
          (Ok subject, [Get (subjectPath +:+ "/" +:+ subjectId +:+ ".xml")]))
  /\ (forall err : error,
        client_get world ("people/" +:+ subjectId +:+ ".xml") = Err err ->
        getSubject world subjectId "people" =
          (client_get world ("companies/" +:+ subjectId +:+ ".xml"),
           [Get ("people/" +:+ subjectId +:+ ".xml");
            Get ("companies/" +:+ subjectId +:+ ".xml")]))
  /\ (forall (subjectPath : string) (err : error),
        subjectPath <> "people" ->
        client_get world (subjectPath +:+ "/" +:+ subjectId +:+ ".xml") = Err err ->
        getSubject world subjectId subjectPath =
          (Err err, [Get (subjectPath +:+ "/" +:+ subjectId +:+ ".xml")])).
Proof.
  repeat split; try reflexivity.
  - intros type H1 H2 H3. unfold getSubjectPath.
    apply String.eqb_neq in H1, H2, H3. now rewrite H1, H2, H3.
  - intros subjectPath subject H. rewrite getSubject_step. cbn zeta.
    now rewrite H.
  - intros err H. rewrite getSubject_step. cbn zeta.
    change ("people" +:+ "/" +:+ subjectId +:+ ".xml")
      with ("people/" +:+ subjectId +:+ ".xml").
    rewrite H. simpl. now rewrite getSubject_companies.
  - intros subjectPath err Hne H. rewrite getSubject_step. cbn zeta.
    rewrite H. apply String.eqb_neq in Hne. now rewrite Hne.
Qed.

(** *** Body Parser *)

(** C7. A note's body is returned as it is. For any other type the body
    is prefixed with the line "Content-Type: text/plain; charset=UTF-8"
    and an empty line, and that text is what the parser is given; the
    parsed text is returned when it is not empty, otherwise the raw body,
    which is the empty string when the raw body is empty. [parseBody]
    fails exactly when the parser does. *)
Theorem parseBody_spec (recording : Recording.t) :
  (Recording.type recording = "note" ->
     parseBody world recording = Ok (Recording.body recording))
  /\ (forall (mail : Mail) (text : string),
        Recording.type recording <> "note" ->
        simpleParser world
          ("Content-Type: text/plain; charset=UTF-8"
           +:+ String "010" (String "010" "") +:+ Recording.body recording) = Ok mail ->
        mail_text mail = Some text -> text <> "" ->
        parseBody world recording = Ok text)
  /\ (forall mail : Mail,
        Recording.type recording <> "note" ->
        simpleParser world
          ("Content-Type: text/plain; charset=UTF-8"
           +:+ String "010" (String "010" "") +:+ Recording.body recording) = Ok mail ->
        mail_text mail = None \/ mail_text mail = Some "" ->
        parseBody world recording = Ok (Recording.body recording)
        /\ (Recording.body recording = "" -> parseBody world recording = Ok ""))
  /\ (forall err : error,
        parseBody world recording = Err err <->
        Recording.type recording <> "note"
        /\ simpleParser world
          ("Content-Type: text/plain; charset=UTF-8"
           +:+ String "010" (String "010" "") +:+ Recording.body recording) = Err err).
Proof.
  unfold parseBody, mime_source. split; [|split; [|split]].
  - intros ->. reflexivity.
  - intros mail text Hne Hp Ht Htext. apply String.eqb_neq in Hne.
    rewrite Hne, Hp, Ht. destruct text; [contradiction | reflexivity].
  - intros mail Hne Hp Ht. apply String.eqb_neq in Hne. rewrite Hne, Hp.
    split; [|intros Hbody; rewrite Hbody];
      destruct Ht as [-> | ->]; simpl; try reflexivity;
      now destruct (Recording.body recording).
  - intros err. split.
    + destruct (String.eqb_spec (Recording.type recording) "note") as [|Hne];
        [discriminate|].
      destruct (simpleParser world _); [discriminate|].
      intros [= ->]. now split.
    + intros [Hne Hp]. apply String.eqb_neq in Hne. now rewrite Hne, Hp.
Qed.

(** *** Message Formatter *)

Lemma recordingType_label (type : string) :
  recordingType world type =
    if String.eqb type "email" then "an email"
    else if String.eqb type "note" then "a note"
    else if String.eqb type "comment" then "a comment"
    else match object_prototype world type with
         | Some printed => printed
         | None => "a note"
         end.
Proof.
  unfold recordingType, recordingTypes. cbn [lookup_own].
  rewrite (String.eqb_sym "email"), (String.eqb_sym "note"),
    (String.eqb_sym "comment").
  destruct (String.eqb type "email"); [reflexivity|].
  destruct (String.eqb type "note"); [reflexivity|].
  destruct (String.eqb type "comment"); reflexivity.
Qed.

Lemma parseBody_fetched (r1 r2 : Recording.t) :
  Recording.fetched r1 = Recording.fetched r2 ->
  parseBody world r1 = parseBody world r2.
Proof.
  unfold Recording.fetched, parseBody, mime_source. intros [= H1 H2 H3 H4].
  now rewrite H2, H3.
Qed.

(** On a recording that has its author and its subject, [formatWebhook]
    answers with the parse error or with a payload. *)
Lemma formatWebhook_enriched (r : Recording.t) (user s : Entity.t) :
  match parseBody world r with
  | Err err => formatWebhook config world (Recording.enrich user s r) = Called (Err err)
  | Ok _ => exists payload,
      formatWebhook config world (Recording.enrich user s r) = Called (Ok payload)
  end.
Proof.
  unfold formatWebhook. simpl Recording.author. cbv iota.
  rewrite (parseBody_fetched (Recording.enrich user s r) r) by reflexivity.
  destruct (parseBody world r); [|reflexivity].
  simpl. eexists. reflexivity.
Qed.

(** C10, as the code has it. For a recording that has its author and its
    subject and whose body parses, [formatWebhook] answers with a payload
    whose text is
    "{first name} shared <{recordingLink}|{label}> about <{subjectLink}|{subjectName}>",
    the first name being the part of [author.name] before its first space
    character and the label that of the type (for a type that is none of
    the three, what [Object.prototype] holds under that name, and "a note"
    when it holds nothing), and whose single attachment has the raw body as
    [fallback], the parsed body as [text], [createdAt / 1000] as [ts] and
    [text, pretext] as [mrkdwn_in]; the attachment has [title] and
    [title_link] (the recording link) exactly when [recording.title] is a
    non-empty string. *)
Theorem formatWebhook_payload
    (recording : Recording.t) (author subject : Entity.t) (parsed : string) :
  Recording.author recording = Some author ->
  Recording.subject recording = Some subject ->
  parseBody world recording = Ok parsed ->
  let type := Recording.type recording in
  let recordingLink := highriseUrl config +:+ type +:+ "s/" +:+ Recording.id recording in
  let subjectLink :=
    highriseUrl config +:+ getSubjectPath (Recording.subjectType recording)
    +:+ "/" +:+ Entity.id subject in
  let label :=
    if String.eqb type "email" then "an email"
    else if String.eqb type "note" then "a note"
    else if String.eqb type "comment" then "a comment"
    else match object_prototype world type with
         | Some printed => printed
         | None => "a note"
         end in
  exists attachment : Attachment.t,
    formatWebhook config world recording =
      Called (Ok (Payload.Build
        (before_space (Entity.name author) +:+ " shared <" +:+ recordingLink +:+ "|"
         +:+ label +:+ "> about <" +:+ subjectLink +:+ "|"
         +:+ Recording.subjectName recording +:+ ">")
        "highrise"
        "http://68.media.tumblr.com/avatar_079aaa3d2066_128.png"
        [attachment]))
    /\ Attachment.fallback attachment = Recording.body recording
    /\ Attachment.text attachment = parsed
    /\ Attachment.ts attachment = Recording.createdAt recording # 1000
    /\ Attachment.mrkdwn_in attachment = ["text"; "pretext"]
    /\ (forall title : string,
          Recording.title recording = Some title -> title <> "" ->
          Attachment.title attachment = Some title
          /\ Attachment.title_link attachment = Some recordingLink)
    /\ (Recording.title recording = None \/ Recording.title recording = Some "" ->
        Attachment.title attachment = None
        /\ Attachment.title_link attachment = None).
Proof.
  intros Ha Hs Hp type recordingLink subjectLink label.
  unfold formatWebhook. rewrite Ha, Hs, Hp.
  rewrite split_space_hd, recordingType_label.
  unfold truncate. rewrite String.eqb_refl.
  eexists. split; [reflexivity|]. cbn.
  repeat split; try reflexivity.
  - rewrite H. destruct title; [contradiction | reflexivity].
  - rewrite H. destruct title; [contradiction | reflexivity].
  - destruct H as [-> | ->]; reflexivity.
  - destruct H as [-> | ->]; reflexivity.
Qed.

(** *** Enricher and delivery: [sendWebhook] *)

(** The requests of [getSubject] are fetches. *)
Lemma getSubject_requests (subjectId subjectPath : string) (ev : event) :
  In ev (snd (getSubject world subjectId subjectPath)) -> exists path, ev = Get path.
Proof.
  rewrite getSubject_step. cbn zeta.
  destruct (client_get world _).
  - intros [<-|[]]. eauto.
  - destruct (String.eqb subjectPath "people").
    + rewrite getSubject_companies. simpl. intros [<-|[<-|[]]]; eauto.
    + intros [<-|[]]. eauto.
Qed.

(** The order in which the two fetches answer makes no difference. *)
Lemma sendWebhook_order (r : Recording.t) :
  sendWebhook config world true r = sendWebhook config world false r.
Proof.
  unfold sendWebhook.
  destruct (client_get world _) as [user|e1];
    destruct (getSubject world _ _) as [[s|e2] evs]; reflexivity.
Qed.

(** When a fetch fails the callback gets [cb()]: no error, no value, and
    nothing posted. The fetched fields are as they were. *)
Lemma sendWebhook_skips (order : bool) (r : Recording.t) :
  (exists err, client_get world ("users/" +:+ Recording.authorId r +:+ ".xml") = Err err)
  \/ (exists err, fst (getSubject world (Recording.subjectId r)
                        (getSubjectPath (Recording.subjectType r))) = Err err) ->
  outcome (sendWebhook config world order r) = Called (Ok None)
  /\ requests (sendWebhook config world order r) =
       Get ("users/" +:+ Recording.authorId r +:+ ".xml")
       :: snd (getSubject world (Recording.subjectId r)
                 (getSubjectPath (Recording.subjectType r)))
  /\ Recording.fetched (recording (sendWebhook config world order r)) =
       Recording.fetched r.
Proof.
  destruct order; [|rewrite <- sendWebhook_order]; unfold sendWebhook;
    (destruct (client_get world _) as [user|e1];
     destruct (getSubject world _ _) as [[s|e2] evs]; simpl;
     intros [[err H]|[err H]]; try discriminate; repeat split; reflexivity).
Qed.

(** When both fetches succeed the recording carries both entities, and
    the callback gets what formatting and posting give. *)
Lemma sendWebhook_enriches (order : bool) (r : Recording.t) (user s : Entity.t) :
  client_get world ("users/" +:+ Recording.authorId r +:+ ".xml") = Ok user ->
  fst (getSubject world (Recording.subjectId r)
         (getSubjectPath (Recording.subjectType r))) = Ok s ->
  let st := sendWebhook config world order r in
  let fetches :=
    Get ("users/" +:+ Recording.authorId r +:+ ".xml")
    :: snd (getSubject world (Recording.subjectId r)
              (getSubjectPath (Recording.subjectType r))) in
  recording st = Recording.enrich user s r
  /\ match formatWebhook config world (Recording.enrich user s r) with
     | Called (Ok payload) =>
         requests st = fetches ++ [Post (slackUrl config) payload]
         /\ outcome st =
              match request world (slackUrl config) payload with
              | Ok response => Called (Ok (Some response))
              | Err err => Called (Err err)
              end
     | Called (Err err) => requests st = fetches /\ outcome st = Called (Err err)
     | Uncaught what => requests st = fetches /\ outcome st = Uncaught what
     | NeverCalled => requests st = fetches /\ outcome st = NeverCalled
     end.
Proof.
  intros Hu Hs st fetches. subst st fetches.
  destruct order; [|rewrite <- sendWebhook_order]; unfold sendWebhook;
    (rewrite Hu; destruct (getSubject world _ _) as [res evs];
     simpl in Hs; subst res; simpl;
     change (Recording.set_subject s (Recording.set_author user r))
       with (Recording.enrich user s r);
     destruct (formatWebhook config world (Recording.enrich user s r))
       as [[payload|err]|what|];
     [destruct (request world (slackUrl config) payload)|..];
     simpl; repeat split; reflexivity).
Qed.

(** Either fetch of a recording fails, or both succeed. *)
Lemma fetches_cases (r : Recording.t) :
  ((exists err, client_get world ("users/" +:+ Recording.authorId r +:+ ".xml") = Err err)
   \/ (exists err, fst (getSubject world (Recording.subjectId r)
                         (getSubjectPath (Recording.subjectType r))) = Err err))
  \/ (exists user s,
        client_get world ("users/" +:+ Recording.authorId r +:+ ".xml") = Ok user
        /\ fst (getSubject world (Recording.subjectId r)
                  (getSubjectPath (Recording.subjectType r))) = Ok s).
Proof.
  destruct (client_get world _) as [user|e1]; [|left; left; eauto].
  destruct (fst (getSubject world _ _)) as [s|e2]; [|left; right; eauto].
  right; eauto.
Qed.

(** [sendWebhook] always calls back. *)
Lemma sendWebhook_called (order : bool) (r : Recording.t) :
  exists res, outcome (sendWebhook config world order r) = Called res.
Proof.
  destruct (fetches_cases r) as [Hskip|(user & s & Hu & Hs)].
  - apply (sendWebhook_skips order) in Hskip as (-> & _). eauto.
  - destruct (sendWebhook_enriches order r user s Hu Hs) as (_ & H).
    pose proof (formatWebhook_enriched r user s) as Hf.
    destruct (parseBody world r).
    + destruct Hf as (payload & Hf). rewrite Hf in H. destruct H as (_ & ->).
      destruct (request world _ _); eauto.
    + rewrite Hf in H. destruct H as (_ & ->). eauto.
Qed.

(** [sendWebhook] leaves the fetched fields of its recording alone. *)
Lemma sendWebhook_fetched (order : bool) (r : Recording.t) :
  Recording.fetched (recording (sendWebhook config world order r)) = Recording.fetched r.
Proof.
  destruct (fetches_cases r) as [Hskip|(user & s & Hu & Hs)].
  - now apply (sendWebhook_skips order) in Hskip.
  - destruct (sendWebhook_enriches order r user s Hu Hs) as (-> & _). reflexivity.
Qed.

(** A payload that was posted decides what the callback gets. *)
Lemma sendWebhook_post (order : bool) (r : Recording.t) (url : string) (payload : Payload.t) :
  In (Post url payload) (requests (sendWebhook config world order r)) ->
  url = slackUrl config
  /\ outcome (sendWebhook config world order r) =
       match request world url payload with
       | Ok response => Called (Ok (Some response))
       | Err err => Called (Err err)
       end.
Proof.
  assert (Hget : forall evs,
    In (Post url payload)
       (Get ("users/" +:+ Recording.authorId r +:+ ".xml")
        :: snd (getSubject world (Recording.subjectId r)
                  (getSubjectPath (Recording.subjectType r))) ++ evs) ->
    In (Post url payload) evs).
  { intros evs [H|H]; [discriminate|].
    apply in_app_or in H as [H|H]; [|assumption].
    apply getSubject_requests in H as (path & H). discriminate. }
  destruct (fetches_cases r) as [Hskip|(user & s & Hu & Hs)].
  - apply (sendWebhook_skips order) in Hskip as (_ & -> & _).
    intros H. rewrite <- (app_nil_r (snd _)) in H. apply Hget in H as [].
  - destruct (sendWebhook_enriches order r user s Hu Hs) as (_ & H).
    destruct (formatWebhook config world _) as [[p|err]|what|];
      destruct H as (-> & Ho); intros Hin;
      try (rewrite <- (app_nil_r (snd _)) in Hin; apply Hget in Hin as []).
    apply (Hget [_]) in Hin as [[= <- <-]|[]]. auto.
Qed.

(** What [sendWebhook] reports depends on the fetched fields only. *)
Lemma sendWebhook_same (order : bool) (r1 r2 : Recording.t) :
  Recording.fetched r1 = Recording.fetched r2 ->
  outcome (sendWebhook config world order r1) = outcome (sendWebhook config world order r2)
  /\ requests (sendWebhook config world order r1) =
       requests (sendWebhook config world order r2).
Proof.
  destruct r1, r2. unfold Recording.fetched. simpl.
  intros [= -> -> -> -> -> -> -> -> -> -> -> ->].
  destruct order; [|rewrite <- !sendWebhook_order]; unfold sendWebhook; simpl;
    (destruct (client_get world _) as [user|e1];
     destruct (getSubject world _ _) as [[s|e2] evs]; split; reflexivity).
Qed.

(** *** The series of tasks *)

Lemma lookup_total_fetched (d1 d2 : list Recording.t) (i : nat) :
  Recording.fetched <$> d1 = Recording.fetched <$> d2 ->
  Recording.fetched (d1 !!! i) = Recording.fetched (d2 !!! i).
Proof.
  intros H. apply (f_equal (fun l => l !! i)) in H.
  rewrite !list_lookup_fmap in H. rewrite !list_lookup_total_alt.
  destruct (d1 !! i), (d2 !! i); simpl in *; congruence.
Qed.

Lemma insert_fetched (data : list Recording.t) (i : nat) (r : Recording.t) :
  Recording.fetched r = Recording.fetched (data !!! i) ->
  Recording.fetched <$> <[i := r]> data = Recording.fetched <$> data.
Proof.
  intros H. rewrite list_fmap_insert.
  destruct (data !! i) as [x|] eqn:Hi.
  - apply list_insert_id. rewrite list_lookup_fmap, Hi. simpl.
    rewrite list_lookup_total_alt, Hi in H. simpl in H. now rewrite H.
  - apply list_insert_ge. rewrite length_fmap. now apply lookup_ge_None.
Qed.

(** The series leaves the fetched fields of every recording alone. *)
Lemma run_fetched (order : nat -> bool) (tasks : list nat) (data : list Recording.t) :
  Recording.fetched <$> fst (fst (run config world order tasks data)) =
  Recording.fetched <$> data.
Proof.
  revert data. induction tasks as [|i rest IH]; intros data; simpl; [reflexivity|].
  pose proof (insert_fetched data i _ (sendWebhook_fetched (order i) (data !!! i))) as Hi.
  destruct (outcome (sendWebhook config world (order i) (data !!! i))) as [[v|err]|what|];
    simpl; try exact Hi.
  specialize (IH (<[i := recording (sendWebhook config world (order i) (data !!! i))]> data)).
  destruct (run config world order rest _) as [[d c] evs]. simpl in *. congruence.
Qed.

(** The series ends with [done(null, results)] or [done(err)]. *)
Lemma run_called (order : nat -> bool) (tasks : list nat) (data : list Recording.t) :
  snd (fst (run config world order tasks data)) = Called (Ok tt)
  \/ exists err, snd (fst (run config world order tasks data)) = Called (Err err).
Proof.
  revert data. induction tasks as [|i rest IH]; intros data; simpl; [now left|].
  destruct (sendWebhook_called (order i) (data !!! i)) as ([v|err] & ->); simpl; [|eauto].
  specialize (IH (<[i := recording (sendWebhook config world (order i) (data !!! i))]> data)).
  destruct (run config world order rest _) as [[d c] evs]. exact IH.
Qed.

(** A failed POST ends the series with its error. *)
Lemma run_post_error (order : nat -> bool) (tasks : list nat) (data : list Recording.t)
    (url : string) (payload : Payload.t) (err : error) :
  In (Post url payload) (snd (run config world order tasks data)) ->
  request world url payload = Err err ->
  snd (fst (run config world order tasks data)) = Called (Err err).
Proof.
  intros Hin Hreq. revert data Hin.
  induction tasks as [|i rest IH]; intros data; simpl; [intros []|].
  pose proof (sendWebhook_post (order i) (data !!! i) url payload) as Hpost.
  rewrite Hreq in Hpost.
  destruct (outcome (sendWebhook config world (order i) (data !!! i))) as [[v|e]|what|];
    simpl;
    try (intros Hin; destruct (Hpost Hin) as [_ Heq];
         first [now injection Heq as -> | discriminate Heq]).
  specialize (IH (<[i := recording (sendWebhook config world (order i) (data !!! i))]> data)).
  destruct (run config world order rest _) as [[d c] evs]. simpl in *.
  intros Hin. apply in_app_or in Hin as [Hin|Hin]; [|auto].
  destruct (Hpost Hin) as [_ Heq]. discriminate Heq.
Qed.

(** When every task calls back without an error the series succeeds. *)
Lemma run_succeeds (order : nat -> bool) (tasks : list nat) (data0 data : list Recording.t) :
  Recording.fetched <$> data = Recording.fetched <$> data0 ->
  (forall i, In i tasks ->
     exists v, outcome (sendWebhook config world (order i) (data0 !!! i)) = Called (Ok v)) ->
  snd (fst (run config world order tasks data)) = Called (Ok tt).
Proof.
  revert data. induction tasks as [|i rest IH]; intros data Hsame Hok; simpl;
    [reflexivity|].
  destruct (Hok i (or_introl eq_refl)) as (v & Hv).
  destruct (sendWebhook_same (order i) _ _ (lookup_total_fetched _ _ i Hsame)) as (Ho & _).
  rewrite Ho, Hv.
  specialize (IH (<[i := recording (sendWebhook config world (order i) (data !!! i))]> data)).
  destruct (run config world order rest _) as [[d c] evs]. simpl in *.
  apply IH; [|intros j Hj; apply Hok; now right].
  rewrite insert_fetched; [assumption | apply sendWebhook_fetched].
Qed.

(** When a task calls back with an error the series fails. *)
Lemma run_fails (order : nat -> bool) (tasks : list nat) (data0 data : list Recording.t)
    (i : nat) (err : error) :
  Recording.fetched <$> data = Recording.fetched <$> data0 ->
  In i tasks ->
  outcome (sendWebhook config world (order i) (data0 !!! i)) = Called (Err err) ->
  exists err', snd (fst (run config world order tasks data)) = Called (Err err').
Proof.
  revert data. induction tasks as [|j rest IH]; intros data Hsame Hin Herr; simpl;
    [destruct Hin|].
  destruct (sendWebhook_same (order j) _ _ (lookup_total_fetched _ _ j Hsame)) as (Ho & _).
  destruct (sendWebhook_called (order j) (data !!! j)) as ([v|e] & Hc);
    rewrite Hc; simpl; [|eauto].
  destruct Hin as [->|Hin]; [congruence|].
  specialize (IH (<[j := recording (sendWebhook config world (order j) (data !!! j))]> data)).
  destruct (run config world order rest _) as [[d c] evs]. simpl in *.
  apply IH; [|assumption..].
  rewrite insert_fetched; [assumption | apply sendWebhook_fetched].
Qed.

(** *** The cycle: [sync] *)

(** The candidates are the indices of the fetched records that pass the
    filter. *)
Lemma filtered_In (lastCheck : Z) (data : list Recording.t) (i : nat) :
  In i (filtered config lastCheck data) <->
  (i < length data)%nat /\ filterRecord config lastCheck (data !!! i) = true.
Proof.
  unfold filtered. split.
  - intros H. apply (Permutation_in _ (sort_perm _ _)) in H.
    apply filter_In in H as [H1 H2]. apply in_seq in H1. split; [lia | assumption].
  - intros [H1 H2]. apply (Permutation_in _ (Permutation_sym (sort_perm _ _))).
    apply filter_In. split; [apply in_seq; lia | assumption].
Qed.

Lemma candidate_In (lastCheck : Z) (data : list Recording.t) (i : nat) (r : Recording.t) :
  data !! i = Some r -> filterRecord config lastCheck r = true ->
  In i (filtered config lastCheck data).
Proof.
  intros Hi Hf. apply filtered_In. split.
  - now apply lookup_lt_Some in Hi.
  - now rewrite (list_lookup_total_correct _ _ _ Hi).
Qed.

Lemma filtered_nil (lastCheck : Z) (data : list Recording.t) :
  filtered config lastCheck data = [] <->
  forall r, In r data -> filterRecord config lastCheck r = false.
Proof.
  split.
  - intros Hnil r Hr. apply list_elem_of_In, list_elem_of_lookup in Hr as (i & Hi).
    destruct (filterRecord config lastCheck r) eqn:Hf; [|reflexivity].
    pose proof (candidate_In _ _ _ _ Hi Hf) as Hin. rewrite Hnil in Hin. destruct Hin.
  - intros Hall. destruct (filtered config lastCheck data) as [|i l] eqn:Hl; [reflexivity|].
    assert (Hin : In i (filtered config lastCheck data)) by (rewrite Hl; now left).
    apply filtered_In in Hin as [Hlt Hf].
    rewrite Hall in Hf; [discriminate|].
    apply list_elem_of_In, list_elem_of_lookup. exists i.
    now apply list_lookup_lookup_total_lt.
Qed.

Lemma fetched_transfer (d1 d2 : list Recording.t) (x : Recording.t) :
  Recording.fetched <$> d1 = Recording.fetched <$> d2 ->
  In x d1 ->
  exists y, In y d2 /\ Recording.updatedAt y = Recording.updatedAt x.
Proof.
  intros Hsame Hx.
  assert (Hfx : Recording.fetched x ∈ Recording.fetched <$> d1).
  { apply list_elem_of_fmap. exists x. split; [reflexivity | now apply list_elem_of_In]. }
  rewrite Hsame in Hfx. apply list_elem_of_fmap in Hfx as (y & Hy & Hin).
  exists y. split; [now apply list_elem_of_In|].
  unfold Recording.fetched in Hy. now injection Hy.
Qed.

(** With no candidate the cycle ends at once, unchanged. *)
Lemma sync_no_candidates (order : nat -> bool) (lastCheck : Z) (data : list Recording.t) :
  client_recordings world lastCheck = Ok data ->
  filtered config lastCheck data = [] ->
  sync config world order lastCheck = (Called (Ok lastCheck), [GetRecordings lastCheck]).
Proof. intros Hd Hnil. unfold sync. now rewrite Hd, Hnil. Qed.

(** What a cycle that returns a checkpoint returns. *)
Lemma sync_ok (order : nat -> bool) (lastCheck : Z) (data : list Recording.t) (cp : Z) :
  client_recordings world lastCheck = Ok data ->
  fst (sync config world order lastCheck) = Called (Ok cp) ->
  (filtered config lastCheck data = [] /\ cp = lastCheck)
  \/ (filtered config lastCheck data <> []
      /\ (exists r, In r data /\ Recording.updatedAt r = cp)
      /\ (forall r, In r data -> Recording.updatedAt r <= cp)).
Proof.
  intros Hd. unfold sync. rewrite Hd.
  destruct (filtered config lastCheck data) as [|i l] eqn:Hl.
  - simpl. intros [= <-]. now left.
  - cbn [length Nat.eqb]. rewrite <- Hl.
    pose proof (run_fetched order (filtered config lastCheck data) data) as Hsame.
    destruct (run config world order _ data) as [[d c] evs]. simpl in Hsame. simpl.
    destruct c as [[[]|err]|what|]; try discriminate.
    assert (Hne : d <> []).
    { intros ->. destruct data; [|discriminate].
      assert (Hin : In i (filtered config lastCheck [])) by (rewrite Hl; now left).
      apply filtered_In in Hin as [Hlt _]. simpl in Hlt. lia. }
    destruct (sort_last_max Recording.updatedAt d Hne) as (m & -> & Hm & Hmax).
    intros [= <-]. right. split; [rewrite Hl; discriminate|]. split.
    + destruct (fetched_transfer d data m Hsame Hm) as (y & Hy & Heq). eauto.
    + intros r Hr.
      destruct (fetched_transfer data d r (eq_sym Hsame) Hr) as (y & Hy & Heq).
      rewrite <- Heq. now apply Hmax.
Qed.

(** A cycle whose candidates all call back without an error returns a
    checkpoint. *)
Lemma sync_completes (order : nat -> bool) (lastCheck : Z) (data : list Recording.t) :
  client_recordings world lastCheck = Ok data ->
  (forall i r, data !! i = Some r -> filterRecord config lastCheck r = true ->
     exists v, outcome (sendWebhook config world (order i) r) = Called (Ok v)) ->
  exists cp, fst (sync config world order lastCheck) = Called (Ok cp).
Proof.
  intros Hd Hok. unfold sync. rewrite Hd.
  destruct (filtered config lastCheck data) as [|i l] eqn:Hl; [simpl; eauto|].
  cbn [length Nat.eqb]. rewrite <- Hl.
  pose proof (run_fetched order (filtered config lastCheck data) data) as Hsame.
  pose proof (run_succeeds order (filtered config lastCheck data) data data eq_refl) as Hrun.
  destruct (run config world order _ data) as [[d c] evs]. simpl in *.
  rewrite Hrun.
  - assert (Hne : d <> []).
    { intros ->. destruct data; [|discriminate].
      assert (Hin : In i (filtered config lastCheck [])) by (rewrite Hl; now left).
      apply filtered_In in Hin as [Hlt _]. simpl in Hlt. lia. }
    destruct (sort_last_max Recording.updatedAt d Hne) as (m & -> & _). eauto.
  - intros j Hj. apply filtered_In in Hj as [Hlt Hf].
    apply (Hok j); [now apply list_lookup_lookup_total_lt | assumption].
Qed.

(** A cycle with a candidate that calls back with an error reports an
    error. *)
Lemma sync_fails (order : nat -> bool) (lastCheck : Z) (data : list Recording.t)
    (i : nat) (r : Recording.t) (err : error) :
  client_recordings world lastCheck = Ok data ->
  data !! i = Some r -> filterRecord config lastCheck r = true ->
  outcome (sendWebhook config world (order i) r) = Called (Err err) ->
  exists err', fst (sync config world order lastCheck) = Called (Err err').
Proof.
  intros Hd Hi Hf Herr. unfold sync. rewrite Hd.
  pose proof (candidate_In _ _ _ _ Hi Hf) as Hin.
  destruct (filtered config lastCheck data) as [|j l] eqn:Hl; [destruct Hin|].
  cbn [length Nat.eqb]. rewrite <- Hl in *.
  rewrite <- (list_lookup_total_correct _ _ _ Hi) in Herr.
  destruct (run_fails order _ data data i err eq_refl Hin Herr) as (err' & Hrun).
  destruct (run config world order _ data) as [[d c] evs]. simpl in *.
  rewrite Hrun. eauto.
Qed.

(** [sync] always calls back: with a checkpoint or with an error. *)
Lemma sync_called (order : nat -> bool) (lastCheck : Z) :
  exists res, fst (sync config world order lastCheck) = Called res.
Proof.
  unfold sync. destruct (client_recordings world lastCheck) as [data|err]; [|simpl; eauto].
  destruct (filtered config lastCheck data) as [|i l] eqn:Hl; [simpl; eauto|].
  cbn [length Nat.eqb]. rewrite <- Hl.
  pose proof (run_fetched order (filtered config lastCheck data) data) as Hsame.
  destruct (run_called order (filtered config lastCheck data) data) as [Hrun|(err & Hrun)];
    destruct (run config world order _ data) as [[d c] evs]; simpl in *; subst c;
    [|eauto].
  assert (Hne : d <> []).
  { intros ->. destruct data; [|discriminate].
    assert (Hin : In i (filtered config lastCheck [])) by (rewrite Hl; now left).
    apply filtered_In in Hin as [Hlt _]. simpl in Hlt. lia. }
  destruct (sort_last_max Recording.updatedAt d Hne) as (m & -> & _). eauto.
Qed.

(** With a candidate, no fetched record is updated after the checkpoint
    returned. *)
Lemma sync_ok_covers
    (order : nat -> bool) (lastCheck : Z) (data : list Recording.t)
    (candidate : Recording.t) (cp : Z) :
  client_recordings world lastCheck = Ok data ->
  In candidate data -> filterRecord config lastCheck candidate = true ->
  fst (sync config world order lastCheck) = Called (Ok cp) ->
  forall r, In r data -> Recording.updatedAt r <= cp.
Proof.
  intros Hd Hr Hf Hcp.
  destruct (sync_ok order lastCheck data cp Hd Hcp) as [[Hnil _]|(_ & _ & Hmax)];
    [|exact Hmax].
  rewrite filtered_nil in Hnil. rewrite (Hnil candidate Hr) in Hf. discriminate.
Qed.

(** C1. When the fetch succeeds with at least one record that passes the
    filter and the cycle returns a checkpoint, that checkpoint is the
    [updatedAt] of a fetched record and no fetched record, filtered out
    or skipped, has a later [updatedAt]. *)
Theorem checkpoint_is_max_updatedAt
    (order : nat -> bool) (lastCheck : Z) (data : list Recording.t) (cp : Z) :
  client_recordings world lastCheck = Ok data ->
  (exists r, In r data /\ filterRecord config lastCheck r = true) ->
  fst (sync config world order lastCheck) = Called (Ok cp) ->
  (exists r, In r data /\ Recording.updatedAt r = cp)
  /\ (forall r, In r data -> Recording.updatedAt r <= cp).
Proof.
  intros Hd (candidate & Hr & Hf) Hcp.
  destruct (sync_ok order lastCheck data cp Hd Hcp) as [[Hnil _]|(_ & Hmax)].
  - apply filtered_nil with (r := candidate) in Hnil; [|exact Hr].
    rewrite Hnil in Hf. discriminate.
  - exact Hmax.
Qed.

(** C3. A candidate whose user fetch or subject fetch fails is skipped:
    its task calls back with neither an error nor a value, posts nothing
    and leaves the fetched fields alone; the series goes on with the
    remaining tasks; every checkpoint the cycle returns is at or after
    the [updatedAt] of the skipped recording, and the cycle does return
    one when the other candidates call back without an error. When both
    fetches succeed the recording carries the user as [author] and the
    entity as [subject], its fetched fields unchanged. *)
Theorem fetch_failure_skips_recording (order : nat -> bool) :
  (forall (lastCheck : Z) (data : list Recording.t) (i : nat) (r : Recording.t),
     client_recordings world lastCheck = Ok data ->
     data !! i = Some r ->
     filterRecord config lastCheck r = true ->
     (exists err,
        client_get world ("users/" +:+ Recording.authorId r +:+ ".xml") = Err err)
     \/ (exists err,
           fst (getSubject world (Recording.subjectId r)
                  (getSubjectPath (Recording.subjectType r))) = Err err) ->
     let st := sendWebhook config world (order i) r in
     outcome st = Called (Ok None)
     /\ (forall url payload, ~ In (Post url payload) (requests st))
     /\ Recording.fetched (recording st) = Recording.fetched r
     /\ (forall (rest : list nat) (store : list Recording.t),
           store !!! i = r ->
           run config world order (i :: rest) store =
             (fst (run config world order rest (<[i := recording st]> store)),
              requests st
              ++ snd (run config world order rest (<[i := recording st]> store))))
     /\ (forall cp,
           fst (sync config world order lastCheck) = Called (Ok cp) ->
           Recording.updatedAt r <= cp)
     /\ ((forall j r',
            data !! j = Some r' -> filterRecord config lastCheck r' = true -> j <> i ->
            exists v, outcome (sendWebhook config world (order j) r') = Called (Ok v)) ->
         exists cp,
           fst (sync config world order lastCheck) = Called (Ok cp)
           /\ Recording.updatedAt r <= cp))
  /\ (forall (o : bool) (r : Recording.t) (user s : Entity.t),
        client_get world ("users/" +:+ Recording.authorId r +:+ ".xml") = Ok user ->
        fst (getSubject world (Recording.subjectId r)
               (getSubjectPath (Recording.subjectType r))) = Ok s ->
        let r' := recording (sendWebhook config world o r) in
        Recording.author r' = Some user
        /\ Recording.subject r' = Some s
        /\ Recording.fetched r' = Recording.fetched r).
Proof.
  split.
  - intros lastCheck data i r Hd Hi Hf Hfail st.
    destruct (sendWebhook_skips (order i) r Hfail) as (Ho & Hreq & Hfetched).
    assert (Hcover : forall cp,
              fst (sync config world order lastCheck) = Called (Ok cp) ->
              Recording.updatedAt r <= cp).
    { intros cp Hcp.
      assert (Hr : In r data) by (apply list_elem_of_In, list_elem_of_lookup; eauto).
      eapply sync_ok_covers; eauto. }
    subst st. repeat split; try assumption.
    + intros url payload Hin. apply sendWebhook_post in Hin as [_ Hin].
      rewrite Ho in Hin. destruct (request world url payload); discriminate.
    + intros rest store <-. cbn [run]. rewrite Ho.
      now destruct (run config world order rest _) as [[d c] evs].
    + intros Hothers.
      destruct (sync_completes order lastCheck data Hd) as (cp & Hcp); [|eauto].
      intros j r' Hj Hf'. destruct (Nat.eq_dec j i) as [->|Hne]; [|eauto].
      rewrite Hi in Hj. injection Hj as <-. eauto.
  - intros o r user s Hu Hs r'. subst r'.
    destruct (sendWebhook_enriches o r user s Hu Hs) as (-> & _).
    repeat split.
Qed.

(** C4. When the POST of a payload fails, the cycle reports that error to
    its caller and returns no checkpoint. *)
Theorem delivery_error_propagates
    (order : nat -> bool) (lastCheck : Z) (url : string) (payload : Payload.t)
    (err : error) :
  In (Post url payload) (snd (sync config world order lastCheck)) ->
  request world url payload = Err err ->
  fst (sync config world order lastCheck) = Called (Err err)
  /\ forall cp, fst (sync config world order lastCheck) <> Called (Ok cp).
Proof.
  intros Hin Hreq.
  assert (H : fst (sync config world order lastCheck) = Called (Err err)).
  { revert Hin. unfold sync.
    destruct (client_recordings world lastCheck) as [data|e];
      [|intros [Hin|[]]; discriminate].
    destruct (length (filtered config lastCheck data) =? 0)%nat;
      [intros [Hin|[]]; discriminate|].
    pose proof (run_post_error order (filtered config lastCheck data) data
                  url payload err) as Hrun.
    destruct (run config world order _ data) as [[d c] evs]. simpl in *.
    intros [Hin|Hin]; [discriminate|]. now rewrite (Hrun Hin Hreq). }
  split; [exact H|]. intros cp. rewrite H. discriminate.
Qed.

(** C5, as the code has it. When the body of a candidate fails to parse
    (its user and its subject having been fetched), the task calls back
    with the parse error and posts nothing, the series ends there without
    starting the remaining tasks, and the cycle reports an error to its
    caller instead of a checkpoint. *)
Theorem parse_error_fails_cycle
    (order : nat -> bool) (lastCheck : Z) (data : list Recording.t)
    (i : nat) (r : Recording.t) (user s : Entity.t) (err : error) :
  client_recordings world lastCheck = Ok data ->
  data !! i = Some r ->
  filterRecord config lastCheck r = true ->
  client_get world ("users/" +:+ Recording.authorId r +:+ ".xml") = Ok user ->
  fst (getSubject world (Recording.subjectId r)
         (getSubjectPath (Recording.subjectType r))) = Ok s ->
  parseBody world r = Err err ->
  outcome (sendWebhook config world (order i) r) = Called (Err err)
  /\ (forall url payload,
        ~ In (Post url payload) (requests (sendWebhook config world (order i) r)))
  /\ (forall (rest : list nat) (store : list Recording.t),
        store !!! i = r ->
        run config world order (i :: rest) store =
          (<[i := recording (sendWebhook config world (order i) r)]> store,
           Called (Err err),
           requests (sendWebhook config world (order i) r)))
  /\ (exists err', fst (sync config world order lastCheck) = Called (Err err'))
  /\ (forall cp, fst (sync config world order lastCheck) <> Called (Ok cp)).
Proof.
  intros Hd Hi Hf Hu Hs Hp.
  destruct (sendWebhook_enriches (order i) r user s Hu Hs) as (_ & H).
  pose proof (formatWebhook_enriched r user s) as Hfmt. rewrite Hp in Hfmt.
  rewrite Hfmt in H. destruct H as (Hreq & Ho).
  destruct (sync_fails order lastCheck data i r err Hd Hi Hf Ho) as (err' & Hsync).
  split; [assumption|]. split; [|split; [|split]].
  - intros url payload Hin. rewrite Hreq in Hin.
    destruct Hin as [Hin|Hin]; [discriminate|].
    apply getSubject_requests in Hin as (path & Hin). discriminate.
  - intros rest store <-. cbn [run]. now rewrite Ho.
  - eauto.
  - intros cp. rewrite Hsync. discriminate.
Qed.

(** C8, as the code has it. When every fetched record that passes the
    filter was updated no earlier than it was created, a cycle that
    returns a checkpoint returns one at or after the checkpoint it was
    given. *)
Theorem checkpoint_monotone
    (order : nat -> bool) (lastCheck : Z) (data : list Recording.t) (cp : Z) :
  client_recordings world lastCheck = Ok data ->
  (forall r, In r data -> filterRecord config lastCheck r = true ->
     Recording.createdAt r <= Recording.updatedAt r) ->
  fst (sync config world order lastCheck) = Called (Ok cp) ->
  lastCheck <= cp.
Proof.
  intros Hd Hinv Hcp.
  destruct (sync_ok order lastCheck data cp Hd Hcp) as [[_ ->]|(Hne & _ & Hmax)];
    [lia|].
  destruct (filtered config lastCheck data) as [|i l] eqn:Hl; [contradiction|].
  assert (Hin : In i (filtered config lastCheck data)) by (rewrite Hl; now left).
  apply filtered_In in Hin as [Hlt Hf].
  assert (Hr : In (data !!! i) data).
  { apply list_elem_of_In, list_elem_of_lookup. exists i.
    now apply list_lookup_lookup_total_lt. }
  specialize (Hinv _ Hr Hf). specialize (Hmax _ Hr).
  apply filterRecord_created in Hf. lia.
Qed.

(** The collaborators as they are when the cycle is run again. *)
Variable world' : World.

Lemma not_created_since (lastCheck : Z) (data : list Recording.t) :
  (forall r, In r data -> Recording.createdAt r <= lastCheck) ->
  filtered config lastCheck data = [].
Proof.
  intros Hold. apply filtered_nil. intros r Hr.
  destruct (filterRecord config lastCheck r) eqn:Hf; [|reflexivity].
  apply filterRecord_created in Hf. specialize (Hold r Hr). lia.
Qed.

(** C9, as the code has it. When no fetched record passes the filter,
    [sync] returns the checkpoint it was given and makes no request
    besides the fetch. And when a cycle has returned a checkpoint and the
    cycle is run again from it on no new CRM data (the fetch answers with
    records of the earlier fetch only), none of them updated before it was
    created, the second run returns that same checkpoint and posts
    nothing. *)
Theorem sync_idempotent (order order' : nat -> bool) (lastCheck : Z)
    (data : list Recording.t) :
  client_recordings world lastCheck = Ok data ->
  ((forall r, In r data -> filterRecord config lastCheck r = false) ->
   sync config world order lastCheck =
     (Called (Ok lastCheck), [GetRecordings lastCheck]))
  /\ (forall (cp : Z) (data' : list Recording.t),
        fst (sync config world order lastCheck) = Called (Ok cp) ->
        client_recordings world' cp = Ok data' ->
        (forall r, In r data' ->
           In r data /\ Recording.createdAt r <= Recording.updatedAt r) ->
        sync config world' order' cp = (Called (Ok cp), [GetRecordings cp])).
Proof.
  intros Hd. split.
  - intros Hnone. apply (sync_no_candidates order lastCheck data Hd).
    now apply filtered_nil.
  - intros cp data' Hcp Hd' Hsame.
    unfold sync. rewrite Hd'.
    assert (Hnil : filtered config cp data' = []); [|now rewrite Hnil].
    destruct (sync_ok order lastCheck data cp Hd Hcp) as [[Hnil ->]|(_ & _ & Hmax)].
    + apply filtered_nil. intros r Hr. rewrite filtered_nil in Hnil.
      apply Hnil. now apply Hsame.
    + apply not_created_since. intros r Hr.
      destruct (Hsame r Hr) as [Hin Hinv]. specialize (Hmax r Hin). lia.
Qed.

(** Resuming from the checkpoint a cycle returned: when the CRM answers
    with nothing but records of the earlier fetch, none of them updated
    before it was created, the next cycle returns the same checkpoint and
    makes no request besides the fetch. *)
Lemma sync_resume_quiet (order order' : nat -> bool) (lastCheck cp : Z)
    (data data' : list Recording.t) :
  client_recordings world lastCheck = Ok data ->
  fst (sync config world order lastCheck) = Called (Ok cp) ->
  client_recordings world' cp = Ok data' ->
  (forall r, In r data' -> In r data) ->
  (forall r, In r data -> Recording.createdAt r <= Recording.updatedAt r) ->
  sync config world' order' cp = (Called (Ok cp), [GetRecordings cp]).
Proof.
  intros Hd Hcp Hd' Hsub Hinv.
  unfold sync. rewrite Hd'.
  assert (Hnil : filtered config cp data' = []); [|now rewrite Hnil].
  destruct (sync_ok order lastCheck data cp Hd Hcp) as [[Hnil ->]|(_ & _ & Hmax)].
  - apply filtered_nil. intros r Hr. rewrite filtered_nil in Hnil. auto.
  - apply not_created_since. intros r Hr.
    specialize (Hinv r (Hsub r Hr)). specialize (Hmax r (Hsub r Hr)). lia.
Qed.
End Properties.

(** ** The properties at work *)

(** The label of a type: an own property of [recordingTypes], else what
    [Object.prototype] holds under that name, else "a note". *)
Example label_of_types :
  recordingType Demo.world "comment" = "a comment"
  /\ recordingType Demo.world "call" = "a note"
  /\ recordingType Demo.world "constructor" = "function Object() { [native code] }".
Proof. repeat split. Qed.

(** One new e-mail: one webhook, and the checkpoint moves to its
    [updatedAt]. *)
Example cycle_posts_new_email :
  sync Demo.config Demo.world_single Demo.user_first 50000
  = (Called (Ok 150000),
     [GetRecordings 50000; Get "users/1.xml"; Get "people/7.xml"; Get "companies/7.xml";
      Post "https://hooks.slack.example/T0" Demo.email_payload]).
Proof. vm_compute. reflexivity. Qed.

(** The same e-mail, created exactly at the checkpoint: nothing is posted. *)
Example cycle_ignores_email_at_checkpoint :
  sync Demo.config Demo.world_single Demo.user_first 100000
  = (Called (Ok 100000), [GetRecordings 100000]).
Proof. vm_compute. reflexivity. Qed.

(** An e-mail, a call that is filtered out and a comment whose author is
    unknown: one webhook, and the checkpoint is the [updatedAt] of the
    call. *)
Example cycle_with_excluded_and_skipped :
  sync Demo.config Demo.world Demo.user_first 50000
  = (Called (Ok 200000),
     [GetRecordings 50000; Get "users/1.xml"; Get "people/7.xml"; Get "companies/7.xml";
      Post "https://hooks.slack.example/T0" Demo.email_payload;
      Get "users/9.xml"; Get "deals/8.xml"]).
Proof. vm_compute. reflexivity. Qed.

Lemma checkpoint_is_max_updatedAt_witness :
  (exists r, In r [Demo.email; Demo.call; Demo.comment]
             /\ Recording.updatedAt r = 200000)
  /\ (forall r, In r [Demo.email; Demo.call; Demo.comment] ->
                Recording.updatedAt r <= 200000).
Proof.
  apply (checkpoint_is_max_updatedAt Demo.config Demo.world Demo.user_first 50000).
  - reflexivity.
  - exists Demo.email. split; [now left | reflexivity].
  - vm_compute. reflexivity.
Defined.

Lemma filterRecord_iff_witness :
  filterRecord Demo.config 100000 Demo.email = false
  /\ filterRecord Demo.config 50000 Demo.email = true.
Proof.
  split.
  - apply (proj2 (filterRecord_iff Demo.config 100000 Demo.email)). reflexivity.
  - apply (proj1 (filterRecord_iff Demo.config 50000 Demo.email)).
    split; [left; reflexivity|]. split; [left; split; reflexivity|].
    simpl. lia.
Defined.

Lemma fetch_failure_skips_recording_witness :
  outcome (sendWebhook Demo.config Demo.world true Demo.comment) = Called (Ok None)
  /\ (exists cp,
        fst (sync Demo.config Demo.world Demo.user_first 50000) = Called (Ok cp)
        /\ 130000 <= cp)
  /\ Recording.author (recording (sendWebhook Demo.config Demo.world true Demo.email))
     = Some Demo.ann.
Proof.
  destruct (fetch_failure_skips_recording Demo.config Demo.world Demo.user_first)
    as [Hskip Hboth].
  destruct (Hskip 50000 [Demo.email; Demo.call; Demo.comment] 2%nat Demo.comment)
    as (Ho & _ & _ & _ & _ & Hadvance).
  - reflexivity.
  - reflexivity.
  - reflexivity.
  - left. exists (Error "404 users/9.xml"). reflexivity.
  - split; [exact Ho|]. split.
    + apply Hadvance. intros j r' Hj Hf Hne.
      destruct j as [|[|[|j]]]; simpl in Hj; try discriminate;
        injection Hj as <-; [|discriminate Hf|contradiction].
      eexists. vm_compute. reflexivity.
    + destruct (Hboth true Demo.email Demo.ann Demo.acme) as (Ha & _);
        [reflexivity | vm_compute; reflexivity | exact Ha].
Defined.

Lemma delivery_error_propagates_witness :
  fst (sync Demo.config Demo.world_unreachable Demo.user_first 50000)
  = Called (Err (Error "ECONNREFUSED")).
Proof.
  apply (delivery_error_propagates Demo.config Demo.world_unreachable Demo.user_first
           50000 (slackUrl Demo.config) Demo.email_payload (Error "ECONNREFUSED")).
  - vm_compute. do 4 right. left. reflexivity.
  - reflexivity.
Defined.

Lemma parse_error_fails_cycle_witness :
  outcome (sendWebhook Demo.config Demo.world_unparsable true Demo.email)
  = Called (Err (Error "malformed message"))
  /\ forall cp,
       fst (sync Demo.config Demo.world_unparsable Demo.user_first 50000)
       <> Called (Ok cp).
Proof.
  destruct (parse_error_fails_cycle Demo.config Demo.world_unparsable Demo.user_first
              50000 [Demo.email; Demo.note] 0%nat Demo.email Demo.ann Demo.acme
              (Error "malformed message"))
    as (Ho & _ & _ & _ & Hnone).
  - reflexivity.
  - reflexivity.
  - reflexivity.
  - reflexivity.
  - vm_compute. reflexivity.
  - reflexivity.
  - split; [exact Ho | exact Hnone].
Defined.

(** The cycle stops at the recording that does not parse: the note after
    it is never fetched for, and no checkpoint comes back. *)
Lemma parse_error_counterexample :
  filterRecord Demo.config 50000 Demo.email = true
  /\ parseBody Demo.world_unparsable Demo.email = Err (Error "malformed message")
  /\ sync Demo.config Demo.world_unparsable Demo.user_first 50000
     = (Called (Err (Error "malformed message")),
        [GetRecordings 50000; Get "users/1.xml"; Get "people/7.xml";
         Get "companies/7.xml"])
  /\ ~ exists cp,
        fst (sync Demo.config Demo.world_unparsable Demo.user_first 50000)
        = Called (Ok cp).
Proof.
  repeat split; try (vm_compute; reflexivity).
  intros (cp & H). vm_compute in H. discriminate H.
Qed.

Lemma getSubject_resolution_witness :
  getSubject Demo.world "7" "people"
  = (Ok Demo.acme, [Get "people/7.xml"; Get "companies/7.xml"])
  /\ getSubject Demo.world "9" "deals"
     = (Err (Error "404 deals/9.xml"), [Get "deals/9.xml"])
  /\ getSubject Demo.world "8" "deals" = (Ok Demo.deal, [Get "deals/8.xml"])
  /\ getSubjectPath "Company" = "people".
Proof.
  destruct (getSubject_resolution Demo.world "7") as ((_ & _ & _ & Hother) & _ & Hpeople & _).
  destruct (getSubject_resolution Demo.world "9") as (_ & _ & _ & Hfail).
  destruct (getSubject_resolution Demo.world "8") as (_ & Hok & _).
  split; [exact (Hpeople (Error "404 people/7.xml") eq_refl)|].
  split; [apply (Hfail "deals" (Error "404 deals/9.xml")); [discriminate | reflexivity]|].
  split; [exact (Hok "deals" Demo.deal eq_refl)|].
  apply Hother; discriminate.
Defined.

Lemma parseBody_spec_witness :
  parseBody Demo.world Demo.note = Ok "Called back."
  /\ parseBody Demo.world Demo.email = Ok "See you on Monday."
  /\ parseBody Demo.world Demo.call = Ok ""
  /\ parseBody Demo.world_unparsable Demo.email = Err (Error "malformed message").
Proof.
  destruct (parseBody_spec Demo.world Demo.note) as (Hnote & _).
  destruct (parseBody_spec Demo.world Demo.email) as (_ & Htext & _).
  destruct (parseBody_spec Demo.world Demo.call) as (_ & _ & Hempty & _).
  destruct (parseBody_spec Demo.world_unparsable Demo.email) as (_ & _ & _ & Herr).
  split; [exact (Hnote eq_refl)|].
  split; [apply (Htext {| mail_text := Some "See you on Monday." |});
          [discriminate | reflexivity | reflexivity | discriminate]|].
  split.
  - destruct (Hempty {| mail_text := Some "" |}) as (_ & H);
      [discriminate | reflexivity | now right | exact (H eq_refl)].
  - apply Herr. split; [discriminate | reflexivity].
Defined.

Lemma checkpoint_monotone_witness :
  fst (sync Demo.config Demo.world Demo.user_first 50000) = Called (Ok 200000)
  /\ 50000 <= 200000.
Proof.
  split; [vm_compute; reflexivity|].
  apply (checkpoint_monotone Demo.config Demo.world Demo.user_first 50000
           [Demo.email; Demo.call; Demo.comment] 200000).
  - reflexivity.
  - intros r [<-|[<-|[<-|[]]]] _; simpl; lia.
  - vm_compute. reflexivity.
Defined.

(** A candidate updated before it was created takes the checkpoint back. *)
Lemma checkpoint_monotone_counterexample :
  client_recordings Demo.world_backdated 50000 = Ok [Demo.backdated]
  /\ fst (sync Demo.config Demo.world_backdated Demo.user_first 50000) = Called (Ok 10000)
  /\ ~ 10000 >= 50000.
Proof.
  split; [reflexivity|]. split; [vm_compute; reflexivity | lia].
Qed.

Lemma sync_idempotent_witness :
  sync Demo.config Demo.world Demo.user_first 200000
  = (Called (Ok 200000), [GetRecordings 200000])
  /\ fst (sync Demo.config Demo.world Demo.user_first 50000) = Called (Ok 200000)
  /\ sync Demo.config Demo.world (fun _ => false) 200000
     = (Called (Ok 200000), [GetRecordings 200000]).
Proof.
  destruct (sync_idempotent Demo.config Demo.world Demo.world Demo.user_first
              (fun _ => false) 200000 [Demo.email; Demo.call; Demo.comment] eq_refl)
    as (Hquiet & _).
  destruct (sync_idempotent Demo.config Demo.world Demo.world Demo.user_first
              (fun _ => false) 50000 [Demo.email; Demo.call; Demo.comment] eq_refl)
    as (_ & Hagain).
  split; [|split].
  - apply Hquiet. intros r [<-|[<-|[<-|[]]]]; reflexivity.
  - vm_compute. reflexivity.
  - apply (Hagain 200000 [Demo.email; Demo.call; Demo.comment]).
    + vm_compute. reflexivity.
    + reflexivity.
    + intros r [<-|[<-|[<-|[]]]]; (split; [simpl; auto | simpl; lia]).
Defined.

(** A recording updated before it was created is posted by the first run,
    which returns its [updatedAt], and posted again by the second,
    whether that starts from the checkpoint returned or from the one
    given, though the CRM holds nothing new. *)
Lemma sync_idempotent_counterexample :
  fst (sync Demo.config Demo.world_backdated Demo.user_first 50000) = Called (Ok 10000)
  /\ client_recordings Demo.world_backdated 10000
     = client_recordings Demo.world_backdated 50000
  /\ (exists payload,
        In (Post (slackUrl Demo.config) payload)
           (snd (sync Demo.config Demo.world_backdated Demo.user_first 10000)))
  /\ (exists payload,
        In (Post (slackUrl Demo.config) payload)
           (snd (sync Demo.config Demo.world_backdated Demo.user_first 50000))).
Proof.
  split; [vm_compute; reflexivity|]. split; [reflexivity|].
  split; eexists; vm_compute; do 4 right; left; reflexivity.
Qed.

Lemma formatWebhook_payload_witness :
  exists attachment,
    formatWebhook Demo.config Demo.world (Recording.enrich Demo.ann Demo.acme Demo.email)
    = Called (Ok (Payload.Build
        "Ann shared <https://acme.highrisehq.com/emails/42|an email> about <https://acme.highrisehq.com/people/7|Acme Inc>"
        "highrise" "http://68.media.tumblr.com/avatar_079aaa3d2066_128.png"
        [attachment]))
    /\ Attachment.title attachment = Some "Re: visit"
    /\ Attachment.ts attachment = 100000 # 1000.
Proof.
  destruct (formatWebhook_payload Demo.config Demo.world
              (Recording.enrich Demo.ann Demo.acme Demo.email) Demo.ann Demo.acme
              "See you on Monday." eq_refl eq_refl eq_refl)
    as (attachment & Hp & _ & _ & Hts & _ & Htitle & _).
  exists attachment. split; [exact Hp|]. split; [|exact Hts].
  apply (Htitle "Re: visit"); [reflexivity | discriminate].
Defined.

(** A name with a tab in it is not cut at the tab, and an empty title is
    not attached. *)
Lemma formatWebhook_counterexample :
  exists payload attachment,
    formatWebhook Demo.config Demo.world Demo.untitled = Called (Ok payload)
    /\ Payload.attachments payload = [attachment]
    /\ first_whitespace_token (Entity.name Demo.tabbed) = "Ann"
    /\ Payload.text payload <>
         first_whitespace_token (Entity.name Demo.tabbed)
         +:+ " shared <https://acme.highrisehq.com/emails/47|an email>"
         +:+ " about <https://acme.highrisehq.com/people/7|Acme Inc>"
    /\ Recording.title Demo.untitled = Some ""
    /\ Attachment.title attachment = None
    /\ Attachment.title_link attachment = None.
Proof.
  eexists. eexists. split; [vm_compute; reflexivity|].
  repeat split; try reflexivity. vm_compute. discriminate.
Qed.

(** ** Further properties of the cycle *)

Section Cycle.
Variable config : Config.
Variable world : World.

(** *** One task *)

Lemma getSubject_request_count (subjectId subjectPath : string) :
  (length (snd (getSubject world subjectId subjectPath)) <= 2)%nat.
Proof.
  rewrite getSubject_step. cbn zeta.
  destruct (client_get world _); [simpl; lia|].
  destruct (String.eqb subjectPath "people"); [|simpl; lia].
  rewrite getSubject_companies. simpl. lia.
Qed.

(** The requests of a task: the fetches, then at most one POST. *)
Lemma sendWebhook_requests (o : bool) (r : Recording.t) :
  let fetches :=
    Get ("users/" +:+ Recording.authorId r +:+ ".xml")
    :: snd (getSubject world (Recording.subjectId r)
              (getSubjectPath (Recording.subjectType r))) in
  requests (sendWebhook config world o r) = fetches
  \/ exists user s payload,
       client_get world ("users/" +:+ Recording.authorId r +:+ ".xml") = Ok user
       /\ fst (getSubject world (Recording.subjectId r)
                 (getSubjectPath (Recording.subjectType r))) = Ok s
       /\ formatWebhook config world (Recording.enrich user s r) = Called (Ok payload)
       /\ requests (sendWebhook config world o r) =
            fetches ++ [Post (slackUrl config) payload]
       /\ outcome (sendWebhook config world o r) =
            match request world (slackUrl config) payload with
            | Ok response => Called (Ok (Some response))
            | Err err => Called (Err err)
            end.
Proof.
  intros fetches. subst fetches.
  destruct (fetches_cases world r) as [Hskip|(user & s & Hu & Hs)].
  - left. now apply (sendWebhook_skips config world o) in Hskip.
  - destruct (sendWebhook_enriches config world o r user s Hu Hs) as (_ & H).
    destruct (formatWebhook config world (Recording.enrich user s r))
      as [[payload|err]|what|] eqn:Hf; try (left; now destruct H).
    right. exists user, s, payload. destruct H as (Hreq & Ho). auto.
Qed.

Lemma sendWebhook_error (o : bool) (r : Recording.t) (err : error) :
  outcome (sendWebhook config world o r) = Called (Err err) ->
  parseBody world r = Err err
  \/ exists payload,
       In (Post (slackUrl config) payload) (requests (sendWebhook config world o r))
       /\ request world (slackUrl config) payload = Err err.
Proof.
  intros Ho.
  destruct (fetches_cases world r) as [Hskip|(user & s & Hu & Hs)].
  - apply (sendWebhook_skips config world o) in Hskip as (Hskip & _). congruence.
  - destruct (sendWebhook_enriches config world o r user s Hu Hs) as (_ & H).
    pose proof (formatWebhook_enriched config world r user s) as Hf.
    destruct (parseBody world r) as [parsed|e].
    + destruct Hf as (payload & Hf). rewrite Hf in H. destruct H as (Hreq & Hout).
      right. exists payload. split.
      * rewrite Hreq. apply in_or_app. right. now left.
      * rewrite Hout in Ho. destruct (request world _ payload); congruence.
    + rewrite Hf in H. destruct H as (_ & Hout). left. congruence.
Qed.

Lemma sendWebhook_request_count (o : bool) (r : Recording.t) :
  (length (requests (sendWebhook config world o r)) <= 4)%nat.
Proof.
  pose proof (getSubject_request_count (Recording.subjectId r)
                (getSubjectPath (Recording.subjectType r))) as Hs.
  destruct (sendWebhook_requests o r) as [->|(user & s & payload & _ & _ & _ & -> & _)];
    [|rewrite length_app]; simpl; lia.
Qed.

(** *** The series *)

Lemma run_order_irrelevant (order order' : nat -> bool) (tasks : list nat)
    (data : list Recording.t) :
  run config world order tasks data = run config world order' tasks data.
Proof.
  revert data. induction tasks as [|i rest IH]; intros data; cbn [run]; [reflexivity|].
  assert (H : sendWebhook config world (order i) (data !!! i)
              = sendWebhook config world (order' i) (data !!! i)).
  { destruct (order i), (order' i); auto using sendWebhook_order, eq_sym. }
  rewrite H. now rewrite IH.
Qed.

(** Every request of the series is a request of one of its tasks. *)
Lemma run_requests_from_tasks (order : nat -> bool) (tasks : list nat)
    (data0 data : list Recording.t) (ev : event) :
  Recording.fetched <$> data = Recording.fetched <$> data0 ->
  In ev (snd (run config world order tasks data)) ->
  exists i, In i tasks
            /\ In ev (requests (sendWebhook config world (order i) (data0 !!! i))).
Proof.
  revert data. induction tasks as [|i rest IH]; intros data Hsame; cbn [run];
    [intros []|].
  destruct (sendWebhook_same config world (order i) _ _
              (lookup_total_fetched _ _ i Hsame)) as (_ & Hreq).
  assert (Hnext : Recording.fetched
                    <$> <[i := recording (sendWebhook config world (order i) (data !!! i))]> data
                  = Recording.fetched <$> data0).
  { rewrite insert_fetched; [assumption | apply sendWebhook_fetched]. }
  specialize (IH _ Hnext).
  destruct (outcome (sendWebhook config world (order i) (data !!! i))) as [[v|e]|what|];
    try (simpl; rewrite Hreq; intros Hin; exists i; split; [now left | assumption]).
  destruct (run config world order rest _) as [[d c] evs]. simpl in *.
  intros Hin. apply in_app_or in Hin as [Hin|Hin].
  - rewrite Hreq in Hin. exists i. split; [now left | assumption].
  - destruct (IH Hin) as (j & Hj & Hev). exists j. split; [now right | assumption].
Qed.

(** An error of the series is the error of one of its tasks, whose requests
    were made. *)
Lemma run_error_source (order : nat -> bool) (tasks : list nat)
    (data0 data : list Recording.t) (err : error) :
  Recording.fetched <$> data = Recording.fetched <$> data0 ->
  snd (fst (run config world order tasks data)) = Called (Err err) ->
  exists i, In i tasks
            /\ outcome (sendWebhook config world (order i) (data0 !!! i)) = Called (Err err)
            /\ forall ev,
                 In ev (requests (sendWebhook config world (order i) (data0 !!! i))) ->
                 In ev (snd (run config world order tasks data)).
Proof.
  revert data. induction tasks as [|i rest IH]; intros data Hsame; cbn [run];
    [discriminate|].
  destruct (sendWebhook_same config world (order i) _ _
              (lookup_total_fetched _ _ i Hsame)) as (Hout & Hreq).
  assert (Hnext : Recording.fetched
                    <$> <[i := recording (sendWebhook config world (order i) (data !!! i))]> data
                  = Recording.fetched <$> data0).
  { rewrite insert_fetched; [assumption | apply sendWebhook_fetched]. }
  specialize (IH _ Hnext). rewrite Hout, Hreq.
  destruct (outcome (sendWebhook config world (order i) (data0 !!! i)))
    as [[v|e]|what|] eqn:Ho; try discriminate.
  - destruct (run config world order rest _) as [[d c] evs]. simpl in *.
    intros Hc. destruct (IH Hc) as (j & Hj & Hoj & Hev).
    exists j. split; [now right|]. split; [assumption|].
    intros ev Hin. apply in_or_app. right. now apply Hev.
  - simpl. intros [= ->]. exists i. split; [now left|]. split; [assumption | auto].
Qed.

Lemma run_request_count (order : nat -> bool) (tasks : list nat) (data : list Recording.t) :
  (length (snd (run config world order tasks data)) <= 4 * length tasks)%nat.
Proof.
  revert data. induction tasks as [|i rest IH]; intros data; cbn [run]; [simpl; lia|].
  pose proof (sendWebhook_request_count (order i) (data !!! i)) as H1.
  specialize (IH (<[i := recording (sendWebhook config world (order i) (data !!! i))]> data)).
  destruct (outcome (sendWebhook config world (order i) (data !!! i))) as [[v|e]|what|];
    try (simpl; lia).
  destruct (run config world order rest _) as [[d c] evs]. simpl in *.
  rewrite length_app. lia.
Qed.

Lemma posted_app (evs evs' : list event) : posted (evs ++ evs') = posted evs ++ posted evs'.
Proof.
  induction evs as [|[path|since|url payload] evs IH]; simpl; [reflexivity|..];
    now rewrite IH.
Qed.

Lemma getSubject_posted (subjectId subjectPath : string) :
  posted (snd (getSubject world subjectId subjectPath)) = [].
Proof.
  rewrite getSubject_step. cbn zeta.
  destruct (client_get world _); [reflexivity|].
  destruct (String.eqb subjectPath "people"); [|reflexivity].
  rewrite getSubject_companies. reflexivity.
Qed.

Lemma formatWebhook_stamped (r : Recording.t) (payload : Payload.t) :
  formatWebhook config world r = Called (Ok payload) ->
  stamped payload = Recording.createdAt r.
Proof.
  unfold formatWebhook.
  destruct (Recording.author r); [|discriminate].
  destruct (parseBody world r); [|discriminate].
  destruct (Recording.subject r); [|discriminate].
  intros [= <-]. reflexivity.
Qed.

(** What a task posts carries the [createdAt] of its recording. *)
Lemma sendWebhook_posted (o : bool) (r : Recording.t) :
  posted (requests (sendWebhook config world o r)) = []
  \/ exists payload,
       posted (requests (sendWebhook config world o r)) = [payload]
       /\ stamped payload = Recording.createdAt r.
Proof.
  destruct (sendWebhook_requests o r) as [->|(user & s & payload & _ & _ & Hf & -> & _)].
  - left. cbn [posted]. apply getSubject_posted.
  - right. exists payload. split.
    + rewrite posted_app. cbn [posted]. now rewrite getSubject_posted.
    + now apply formatWebhook_stamped in Hf.
Qed.

Lemma run_posted_sorted (order : nat -> bool) (tasks : list nat)
    (data0 data : list Recording.t) :
  Recording.fetched <$> data = Recording.fetched <$> data0 ->
  StronglySorted (ascending (fun i => Recording.createdAt (data0 !!! i))) tasks ->
  StronglySorted Z.le (map stamped (posted (snd (run config world order tasks data))))
  /\ forall t, In t (map stamped (posted (snd (run config world order tasks data)))) ->
               exists i, In i tasks /\ t = Recording.createdAt (data0 !!! i).
Proof.
  revert data. induction tasks as [|i rest IH]; intros data Hsame Hsorted; cbn [run].
  - split; [constructor | intros t []].
  - apply StronglySorted_inv in Hsorted as [Hrest Hi].
    assert (Hnext : Recording.fetched
                      <$> <[i := recording (sendWebhook config world (order i) (data !!! i))]> data
                    = Recording.fetched <$> data0).
    { rewrite insert_fetched; [assumption | apply sendWebhook_fetched]. }
    specialize (IH _ Hnext Hrest).
    assert (Hkey : Recording.createdAt (data !!! i) = Recording.createdAt (data0 !!! i)).
    { pose proof (lookup_total_fetched _ _ i Hsame) as H.
      unfold Recording.fetched in H. now injection H. }
    assert (Hone : forall evs,
      StronglySorted Z.le (map stamped (posted evs)) ->
      (forall t, In t (map stamped (posted evs)) ->
                 exists j, In j rest /\ t = Recording.createdAt (data0 !!! j)) ->
      StronglySorted Z.le
        (map stamped
           (posted (requests (sendWebhook config world (order i) (data !!! i)) ++ evs)))
      /\ forall t,
           In t (map stamped
                   (posted (requests (sendWebhook config world (order i) (data !!! i))
                            ++ evs))) ->
           exists j, In j (i :: rest) /\ t = Recording.createdAt (data0 !!! j)).
    { intros evs Hs Hfrom. rewrite posted_app.
      destruct (sendWebhook_posted (order i) (data !!! i)) as [->|(payload & -> & Hp)];
        simpl.
      - split; [assumption|]. intros t Ht. destruct (Hfrom t Ht) as (j & Hj & ->). eauto.
      - rewrite Hp, Hkey. split.
        + constructor; [assumption|]. apply Forall_forall. intros t Ht.
          apply list_elem_of_In in Ht. destruct (Hfrom t Ht) as (j & Hj & ->).
          rewrite Forall_forall in Hi. apply list_elem_of_In in Hj. now apply Hi.
        + intros t [<-|Ht]; [eauto|]. destruct (Hfrom t Ht) as (j & Hj & ->). eauto. }
    destruct (outcome (sendWebhook config world (order i) (data !!! i))) as [[v|e]|what|];
      try (simpl; rewrite <- (app_nil_r (requests _));
           apply Hone; [constructor | intros t []]).
    destruct (run config world order rest _) as [[d c] evs]. simpl in *.
    now apply Hone.
Qed.

Lemma filter_seq_length {A : Type} `{Inhabited A} (f : A -> bool) (l : list A) :
  forall (start : nat) (g : nat -> A),
    (forall i, (i < length l)%nat -> g (start + i)%nat = l !!! i) ->
    length (List.filter (fun i => f (g i)) (seq start (length l)))
    = length (List.filter f l).
Proof.
  induction l as [|x l IH]; intros start g Hg; [reflexivity|].
  cbn [length seq List.filter].
  pose proof (Hg 0%nat) as H0. rewrite Nat.add_0_r in H0.
  rewrite H0 by (simpl; lia). cbn [lookup_total list_lookup_total].
  assert (Hrest : length (List.filter (fun i => f (g i)) (seq (S start) (length l)))
                  = length (List.filter f l)).
  { apply IH. intros i Hi. replace (S start + i)%nat with (start + S i)%nat by lia.
    rewrite Hg by (simpl; lia). reflexivity. }
  destruct (f x); simpl; now rewrite Hrest.
Qed.

(** There are as many candidates as fetched records that pass the filter. *)
Lemma filtered_length (lastCheck : Z) (data : list Recording.t) :
  length (filtered config lastCheck data)
  = length (List.filter (filterRecord config lastCheck) data).
Proof.
  unfold filtered. rewrite sort_length.
  apply (filter_seq_length (filterRecord config lastCheck) data 0%nat
           (fun i => data !!! i)).
  reflexivity.
Qed.

Lemma recording_done (err : option error) (st : task) :
  recording (done config world err st) = recording st.
Proof.
  unfold done, invoke. destruct err; [now destruct (outcome st)|].
  cbn [pending recording outcome requests].
  destruct (pending st - 1 >? 0); [reflexivity|].
  destruct (formatWebhook config world (recording st)) as [[payload|e]|what|];
    try reflexivity; [|now destruct (outcome st)].
  destruct (request world (slackUrl config) payload); now destruct (outcome st).
Qed.

Lemma run_post_count (order : nat -> bool) (tasks : list nat) (data : list Recording.t) :
  (length (posted (snd (run config world order tasks data))) <= length tasks)%nat.
Proof.
  revert data. induction tasks as [|i rest IH]; intros data; cbn [run]; [simpl; lia|].
  assert (H1 : (length (posted (requests (sendWebhook config world (order i) (data !!! i))))
                <= 1)%nat).
  { destruct (sendWebhook_posted (order i) (data !!! i)) as [->|(payload & -> & _)];
      simpl; lia. }
  specialize (IH (<[i := recording (sendWebhook config world (order i) (data !!! i))]> data)).
  destruct (outcome (sendWebhook config world (order i) (data !!! i))) as [[v|e]|what|];
    try (simpl; lia).
  destruct (run config world order rest _) as [[d c] evs]. simpl in *.
  rewrite posted_app, length_app. lia.
Qed.

(** *** The cycle *)

(** X1. What a cycle calls back with and the webhooks it posts, in their
    order, do not depend on which of the two fetches of a recording
    answers first. *)
Theorem sync_order_irrelevant (order order' : nat -> bool) (lastCheck : Z) :
  fst (sync config world order lastCheck) = fst (sync config world order' lastCheck)
  /\ posted (snd (sync config world order lastCheck))
     = posted (snd (sync config world order' lastCheck)).
Proof.
  assert (H : sync config world order lastCheck = sync config world order' lastCheck).
  { unfold sync. destruct (client_recordings world lastCheck) as [data|err];
      [|reflexivity].
    now rewrite (run_order_irrelevant order order'). }
  now rewrite H.
Qed.

(** X2. [sync] calls back with a checkpoint or with an error: no
    [TypeError] escapes ([formatWebhook] only runs once author and subject
    are attached, and the sorted fetch is indexed only when it is not
    empty), and the callback is never left uncalled. *)
Theorem sync_calls_back (order : nat -> bool) (lastCheck : Z) :
  (exists cp, fst (sync config world order lastCheck) = Called (Ok cp))
  \/ (exists err, fst (sync config world order lastCheck) = Called (Err err)).
Proof.
  destruct (sync_called config world order lastCheck) as ([cp|err] & H); eauto.
Qed.

(** X3. An error reported by [sync] is the error of the recordings fetch,
    or the parse error of a recording that passed the filter, or the
    error of a POST the cycle made. A failed user or subject fetch is
    never reported. *)
Theorem sync_error_provenance (order : nat -> bool) (lastCheck : Z) (err : error) :
  fst (sync config world order lastCheck) = Called (Err err) ->
  client_recordings world lastCheck = Err err
  \/ exists data i r,
       client_recordings world lastCheck = Ok data
       /\ data !! i = Some r
       /\ filterRecord config lastCheck r = true
       /\ (parseBody world r = Err err
           \/ exists payload,
                In (Post (slackUrl config) payload)
                   (snd (sync config world order lastCheck))
                /\ request world (slackUrl config) payload = Err err).
Proof.
  unfold sync. destruct (client_recordings world lastCheck) as [data|e];
    [|intros [= ->]; now left].
  destruct (length (filtered config lastCheck data) =? 0)%nat; [discriminate|].
  pose proof (run_error_source order (filtered config lastCheck data) data data err eq_refl)
    as Hsrc.
  destruct (run config world order _ data) as [[d c] evs]. simpl in *.
  destruct c as [[v|e]|what|]; try discriminate;
    [destruct (sort _ d !! _); discriminate|].
  intros [= ->]. destruct (Hsrc eq_refl) as (i & Hi & Ho & Hev).
  apply filtered_In in Hi as [Hlt Hf].
  right. exists data, i, (data !!! i).
  split; [reflexivity|]. split; [now apply list_lookup_lookup_total_lt|].
  split; [assumption|].
  destruct (sendWebhook_error _ _ _ Ho) as [Hp|(payload & Hin & Hreq)]; [now left|].
  right. exists payload. split; [right; now apply Hev | assumption].
Qed.

(** X4. A cycle returns a checkpoint exactly when the recordings fetch
    succeeds and the task of every fetched record that passes the filter
    calls back without an error. *)
Theorem sync_succeeds_iff (order : nat -> bool) (lastCheck : Z) :
  (exists cp, fst (sync config world order lastCheck) = Called (Ok cp))
  <-> exists data,
        client_recordings world lastCheck = Ok data
        /\ forall i r,
             data !! i = Some r -> filterRecord config lastCheck r = true ->
             exists v, outcome (sendWebhook config world (order i) r) = Called (Ok v).
Proof.
  split.
  - intros (cp & Hcp).
    destruct (client_recordings world lastCheck) as [data|e] eqn:Hd.
    + exists data. split; [reflexivity|]. intros i r Hi Hf.
      destruct (sendWebhook_called config world (order i) r) as ([v|err] & Ho); [eauto|].
      destruct (sync_fails config world order lastCheck data i r err Hd Hi Hf Ho)
        as (err' & Herr).
      congruence.
    + unfold sync in Hcp. rewrite Hd in Hcp. discriminate.
  - intros (data & Hd & Hok). now apply (sync_completes config world order lastCheck data).
Qed.

(** X5. Every webhook of a cycle goes to [config.slackUrl] and is the
    payload formatted from a fetched record that passed the filter, with
    the user and the subject that were fetched for it. *)
Theorem posts_only_for_candidates
    (order : nat -> bool) (lastCheck : Z) (url : string) (payload : Payload.t) :
  In (Post url payload) (snd (sync config world order lastCheck)) ->
  url = slackUrl config
  /\ exists data i r user s,
       client_recordings world lastCheck = Ok data
       /\ data !! i = Some r
       /\ filterRecord config lastCheck r = true
       /\ client_get world ("users/" +:+ Recording.authorId r +:+ ".xml") = Ok user
       /\ fst (getSubject world (Recording.subjectId r)
                 (getSubjectPath (Recording.subjectType r))) = Ok s
       /\ formatWebhook config world (Recording.enrich user s r) = Called (Ok payload).
Proof.
  unfold sync. destruct (client_recordings world lastCheck) as [data|e];
    [|intros [H|[]]; discriminate].
  destruct (length (filtered config lastCheck data) =? 0)%nat;
    [intros [H|[]]; discriminate|].
  pose proof (run_requests_from_tasks order (filtered config lastCheck data) data data
                (Post url payload) eq_refl) as Hsrc.
  destruct (run config world order _ data) as [[d c] evs]. simpl in *.
  intros [H|Hin]; [discriminate|].
  destruct (Hsrc Hin) as (i & Hi & Hreq). apply filtered_In in Hi as [Hlt Hf].
  destruct (sendWebhook_requests (order i) (data !!! i))
    as [Hr|(user & s & p & Hu & Hs & Hfmt & Hr & _)]; rewrite Hr in Hreq.
  - destruct Hreq as [H|H]; [discriminate|].
    apply getSubject_requests in H as (path & H). discriminate.
  - apply in_app_or in Hreq as [[H|H]|[H|[]]];
      [discriminate | apply getSubject_requests in H as (path & H); discriminate |].
    injection H as <- <-. split; [reflexivity|].
    exists data, i, (data !!! i), user, s.
    split; [reflexivity|]. split; [now apply list_lookup_lookup_total_lt|]. auto.
Qed.

(** X6. A cycle posts at most one webhook per fetched record that passes
    the filter. *)
Theorem posts_at_most_one_per_candidate
    (order : nat -> bool) (lastCheck : Z) (data : list Recording.t) :
  client_recordings world lastCheck = Ok data ->
  (length (posted (snd (sync config world order lastCheck)))
   <= length (List.filter (filterRecord config lastCheck) data))%nat.
Proof.
  intros Hd. unfold sync. rewrite Hd. rewrite <- filtered_length.
  destruct (length (filtered config lastCheck data) =? 0)%nat; [simpl; lia|].
  pose proof (run_post_count order (filtered config lastCheck data) data) as Hn.
  destruct (run config world order _ data) as [[d c] evs]. simpl in *. exact Hn.
Qed.

(** X7. A cycle makes at most four requests per fetched record that passes
    the filter (the user, the subject, the subject again as a company, the
    POST), besides the recordings fetch: nothing is retried. *)
Theorem requests_bounded
    (order : nat -> bool) (lastCheck : Z) (data : list Recording.t) :
  client_recordings world lastCheck = Ok data ->
  (length (snd (sync config world order lastCheck))
   <= 1 + 4 * length (List.filter (filterRecord config lastCheck) data))%nat.
Proof.
  intros Hd. unfold sync. rewrite Hd. rewrite <- filtered_length.
  destruct (length (filtered config lastCheck data) =? 0)%nat; [simpl; lia|].
  pose proof (run_request_count order (filtered config lastCheck data) data) as Hn.
  destruct (run config world order _ data) as [[d c] evs]. simpl in *. lia.
Qed.

(** X8. The tasks of a cycle are the fetched records that pass the filter,
    each exactly once, in ascending order of [createdAt]. *)
Theorem candidates_once_oldest_first (lastCheck : Z) (data : list Recording.t) :
  List.NoDup (filtered config lastCheck data)
  /\ StronglySorted (ascending (fun i => Recording.createdAt (data !!! i)))
                    (filtered config lastCheck data)
  /\ forall i,
       In i (filtered config lastCheck data)
       <-> exists r, data !! i = Some r /\ filterRecord config lastCheck r = true.
Proof.
  split; [|split].
  - unfold filtered. eapply Permutation_NoDup; [symmetry; apply sort_perm|].
    apply List.NoDup_filter, seq_NoDup.
  - apply sort_ascending.
  - intros i. rewrite filtered_In. split.
    + intros [Hlt Hf]. exists (data !!! i).
      split; [now apply list_lookup_lookup_total_lt | assumption].
    + intros (r & Hi & Hf). split; [now apply lookup_lt_Some in Hi|].
      now rewrite (list_lookup_total_correct _ _ _ Hi).
Qed.

(** X9. The webhooks of a cycle are posted in ascending order of the
    [createdAt] they are stamped with. *)
Theorem posts_chronological (order : nat -> bool) (lastCheck : Z) :
  StronglySorted Z.le (map stamped (posted (snd (sync config world order lastCheck)))).
Proof.
  unfold sync. destruct (client_recordings world lastCheck) as [data|e];
    [|simpl; constructor].
  destruct (length (filtered config lastCheck data) =? 0)%nat; [simpl; constructor|].
  pose proof (run_posted_sorted order (filtered config lastCheck data) data data eq_refl
                (sort_ascending _ _)) as [Hs _].
  destruct (run config world order _ data) as [[d c] evs]. simpl in *. exact Hs.
Qed.

(** X10. Once a cycle has returned a checkpoint, no record of its fetch
    that was updated no earlier than it was created passes the filter at
    that checkpoint: what was posted is not posted again, and what was
    skipped is not tried again. *)
Theorem fetched_never_reconsidered
    (order : nat -> bool) (lastCheck : Z) (data : list Recording.t) (cp : Z)
    (r : Recording.t) :
  client_recordings world lastCheck = Ok data ->
  fst (sync config world order lastCheck) = Called (Ok cp) ->
  In r data ->
  Recording.createdAt r <= Recording.updatedAt r ->
  filterRecord config cp r = false.
Proof.
  intros Hd Hcp Hr Hinv.
  destruct (sync_ok config world order lastCheck data cp Hd Hcp)
    as [[Hnil ->]|(_ & _ & Hmax)].
  - rewrite filtered_nil in Hnil. auto.
  - destruct (filterRecord config cp r) eqn:Hf; [|reflexivity].
    apply filterRecord_created in Hf. specialize (Hmax r Hr). lia.
Qed.

(** X11. [sendWebhook] writes [author] exactly when the user fetch
    succeeds and [subject] exactly when the subject fetch succeeds, each
    whatever became of the other; every other field is left as it was. *)
Theorem sendWebhook_writes_own_fields (o : bool) (r : Recording.t) :
  recording (sendWebhook config world o r) =
    Recording.Build
      (Recording.id r) (Recording.type r) (Recording.body r) (Recording.title r)
      (Recording.authorId r) (Recording.subjectId r) (Recording.subjectType r)
      (Recording.subjectName r) (Recording.visibleTo r) (Recording.groupId r)
      (Recording.createdAt r) (Recording.updatedAt r)
      match client_get world ("users/" +:+ Recording.authorId r +:+ ".xml") with
      | Ok user => Some user
      | Err _ => Recording.author r
      end
      match fst (getSubject world (Recording.subjectId r)
                   (getSubjectPath (Recording.subjectType r))) with
      | Ok s => Some s
      | Err _ => Recording.subject r
      end.
Proof.
  unfold sendWebhook, on_user, on_subject.
  destruct o, (client_get world _) as [user|e1],
    (getSubject world _ _) as [[s|e2] evs];
    cbn [fst snd]; repeat (rewrite recording_done; cbn [recording]);
    destruct r; reflexivity.
Qed.

(** When the series succeeds, the requests of each of its tasks were made. *)
Lemma run_ok_includes (order : nat -> bool) (tasks : list nat)
    (data0 data : list Recording.t) :
  Recording.fetched <$> data = Recording.fetched <$> data0 ->
  snd (fst (run config world order tasks data)) = Called (Ok tt) ->
  forall i ev,
    In i tasks ->
    In ev (requests (sendWebhook config world (order i) (data0 !!! i))) ->
    In ev (snd (run config world order tasks data)).
Proof.
  revert data. induction tasks as [|j rest IH]; intros data Hsame; cbn [run];
    [intros _ i ev []|].
  destruct (sendWebhook_same config world (order j) _ _
              (lookup_total_fetched _ _ j Hsame)) as (Hout & Hreq).
  assert (Hnext : Recording.fetched
                    <$> <[j := recording (sendWebhook config world (order j) (data !!! j))]> data
                  = Recording.fetched <$> data0).
  { rewrite insert_fetched; [assumption | apply sendWebhook_fetched]. }
  specialize (IH _ Hnext). rewrite Hreq.
  destruct (outcome (sendWebhook config world (order j) (data !!! j)))
    as [[v|e]|what|]; try discriminate.
  destruct (run config world order rest _) as [[d c] evs]. simpl in *.
  intros Hc i ev [<-|Hi] Hev; apply in_or_app; [now left|].
  right. now apply (IH Hc i).
Qed.

(** X14. When a cycle returns a checkpoint, every fetched record that
    passes the filter and whose user and subject could be fetched has had
    its webhook posted. *)
Theorem delivered_when_cycle_succeeds
    (order : nat -> bool) (lastCheck : Z) (data : list Recording.t) (cp : Z)
    (i : nat) (r : Recording.t) (user s : Entity.t) :
  client_recordings world lastCheck = Ok data ->
  fst (sync config world order lastCheck) = Called (Ok cp) ->
  data !! i = Some r ->
  filterRecord config lastCheck r = true ->
  client_get world ("users/" +:+ Recording.authorId r +:+ ".xml") = Ok user ->
  fst (getSubject world (Recording.subjectId r)
         (getSubjectPath (Recording.subjectType r))) = Ok s ->
  exists payload,
    formatWebhook config world (Recording.enrich user s r) = Called (Ok payload)
    /\ In (Post (slackUrl config) payload) (snd (sync config world order lastCheck)).
Proof.
  intros Hd Hcp Hi Hf Hu Hs.
  pose proof (candidate_In config lastCheck data i r Hi Hf) as Hin.
  destruct (sendWebhook_enriches config world (order i) r user s Hu Hs) as (_ & H).
  pose proof (formatWebhook_enriched config world r user s) as Hfmt.
  destruct (parseBody world r) as [parsed|err].
  - destruct Hfmt as (payload & Hfmt). rewrite Hfmt in H. destruct H as (Hreq & _).
    exists payload. split; [assumption|].
    revert Hcp. unfold sync. rewrite Hd.
    destruct (filtered config lastCheck data) as [|j l] eqn:Hl; [destruct Hin|].
    cbn [length Nat.eqb]. rewrite <- Hl in *.
    pose proof (run_ok_includes order (filtered config lastCheck data) data data eq_refl)
      as Hinc.
    destruct (run config world order _ data) as [[d c] evs]. simpl in *.
    destruct c as [[[]|e]|what|]; try discriminate. intros _.
    right. apply (Hinc eq_refl i); [assumption|].
    rewrite (list_lookup_total_correct _ _ _ Hi), Hreq.
    right. apply in_or_app. right. now left.
  - rewrite Hfmt in H. destruct H as (_ & Ho).
    destruct (sync_fails config world order lastCheck data i r err Hd Hi Hf Ho)
      as (err' & Herr).
    congruence.
Qed.

(** X15. A Party that turns out to be a company is still linked under
    [people/]: the subject link of the webhook is built from the
    [subjectType] of the recording, not from the collection that
    answered. *)
Theorem company_linked_under_people
    (o : bool) (r : Recording.t) (user company : Entity.t) (parsed : string)
    (err : error) :
  Recording.subjectType r = "Party" ->
  client_get world ("users/" +:+ Recording.authorId r +:+ ".xml") = Ok user ->
  client_get world ("people/" +:+ Recording.subjectId r +:+ ".xml") = Err err ->
  client_get world ("companies/" +:+ Recording.subjectId r +:+ ".xml") = Ok company ->
  parseBody world r = Ok parsed ->
  exists payload,
    In (Post (slackUrl config) payload) (requests (sendWebhook config world o r))
    /\ Payload.text payload =
         before_space (Entity.name user) +:+ " shared <"
         +:+ (highriseUrl config +:+ Recording.type r +:+ "s/" +:+ Recording.id r)
         +:+ "|" +:+ recordingType world (Recording.type r)
         +:+ "> about <" +:+ (highriseUrl config +:+ "people/" +:+ Entity.id company)
         +:+ "|" +:+ Recording.subjectName r +:+ ">".
Proof.
  intros Htype Hu Hpeople Hcompany Hp.
  assert (Hs : fst (getSubject world (Recording.subjectId r)
                      (getSubjectPath (Recording.subjectType r))) = Ok company).
  { rewrite Htype. change (getSubjectPath "Party") with "people".
    rewrite getSubject_step. cbn zeta.
    change ("people" +:+ "/" +:+ Recording.subjectId r +:+ ".xml")
      with ("people/" +:+ Recording.subjectId r +:+ ".xml").
    rewrite Hpeople. cbn [String.eqb fst]. simpl String.eqb. cbn iota.
    now rewrite getSubject_companies. }
  destruct (sendWebhook_enriches config world o r user company Hu Hs) as (_ & H).
  assert (Hfmt : exists payload,
    formatWebhook config world (Recording.enrich user company r) = Called (Ok payload)
    /\ Payload.text payload =
         before_space (Entity.name user) +:+ " shared <"
         +:+ (highriseUrl config +:+ Recording.type r +:+ "s/" +:+ Recording.id r)
         +:+ "|" +:+ recordingType world (Recording.type r)
         +:+ "> about <" +:+ (highriseUrl config +:+ "people/" +:+ Entity.id company)
         +:+ "|" +:+ Recording.subjectName r +:+ ">").
  { unfold formatWebhook. cbn [Recording.author Recording.subject Recording.enrich
      Recording.set_author Recording.set_subject].
    rewrite (parseBody_fetched world (Recording.enrich user company r) r) by reflexivity.
    rewrite Hp, split_space_hd. cbn [Recording.type Recording.id Recording.subjectType
      Recording.subjectName Recording.enrich Recording.set_author Recording.set_subject].
    rewrite Htype. eexists. split; [reflexivity|]. reflexivity. }
  destruct Hfmt as (payload & Hfmt & Htext). rewrite Hfmt in H. destruct H as (Hreq & _).
  exists payload. split; [|exact Htext].
  rewrite Hreq. apply in_or_app. right. now left.
Qed.

(** X16. A note whose user and subject are fetched is posted with its body
    as the text of the attachment, whatever the mail parser would answer;
    its task can only fail with the error of the POST. *)
Theorem note_posted_verbatim (o : bool) (r : Recording.t) (user s : Entity.t) :
  Recording.type r = "note" ->
  client_get world ("users/" +:+ Recording.authorId r +:+ ".xml") = Ok user ->
  fst (getSubject world (Recording.subjectId r)
         (getSubjectPath (Recording.subjectType r))) = Ok s ->
  exists payload attachment,
    In (Post (slackUrl config) payload) (requests (sendWebhook config world o r))
    /\ Payload.attachments payload = [attachment]
    /\ Attachment.text attachment = Recording.body r
    /\ Attachment.fallback attachment = Recording.body r
    /\ outcome (sendWebhook config world o r) =
         match request world (slackUrl config) payload with
         | Ok response => Called (Ok (Some response))
         | Err err => Called (Err err)
         end.
Proof.
  intros Htype Hu Hs.
  destruct (sendWebhook_enriches config world o r user s Hu Hs) as (_ & H).
  assert (Hfmt : exists payload a,
    formatWebhook config world (Recording.enrich user s r) = Called (Ok payload)
    /\ Payload.attachments payload = [a]
    /\ Attachment.text a = Recording.body r
    /\ Attachment.fallback a = Recording.body r).
  { unfold formatWebhook, parseBody.
    cbn [Recording.author Recording.subject Recording.type Recording.body
         Recording.enrich Recording.set_author Recording.set_subject].
    rewrite Htype, (String.eqb_refl "note").
    unfold truncate. rewrite String.eqb_refl.
    eexists. eexists. split; [reflexivity|]. repeat split. }
  destruct Hfmt as (payload & a & Hfmt & Ha & Ht & Hfb).
  rewrite Hfmt in H. destruct H as (Hreq & Ho).
  exists payload, a. repeat split; try assumption.
  rewrite Hreq. apply in_or_app. right. now left.
Qed.
End Cycle.

(** *** The configuration *)

Lemma append_cons (c : ascii) (a b : string) : String c a +:+ b = String c (a +:+ b).
Proof. reflexivity. Qed.

Lemma append_slash_nonempty (front : string) : front +:+ "/" <> "".
Proof. destruct front; discriminate. Qed.

(** X12. [config.highriseUrl] ends with a slash: a URL that already ends
    with one is kept as it is, any other gets one appended, and doing it
    twice changes nothing more. *)
Theorem with_trailing_slash_spec (url : string) :
  (exists front, with_trailing_slash url = front +:+ "/")
  /\ (forall front, url = front +:+ "/" -> with_trailing_slash url = url)
  /\ ((forall front, url <> front +:+ "/") -> with_trailing_slash url = url +:+ "/")
  /\ with_trailing_slash (with_trailing_slash url) = with_trailing_slash url.
Proof.
  assert (Hkeep : forall front, with_trailing_slash (front +:+ "/") = front +:+ "/").
  { induction front as [|c front IH]; [reflexivity|].
    rewrite append_cons. cbn [with_trailing_slash].
    rewrite (proj2 (String.eqb_neq _ _) (append_slash_nonempty front)).
    rewrite andb_false_r. now rewrite IH. }
  assert (Hends : exists front, with_trailing_slash url = front +:+ "/").
  { induction url as [|c url (front & IH)]; [now exists ""|].
    cbn [with_trailing_slash].
    destruct (Ascii.eqb c "/" && String.eqb url ""); [now exists ""|].
    exists (String c front). rewrite append_cons. now rewrite IH. }
  split; [exact Hends|]. split; [|split].
  - intros front ->. apply Hkeep.
  - clear Hends. induction url as [|c url IH]; intros Hno; [reflexivity|].
    rewrite append_cons. cbn [with_trailing_slash].
    destruct (Ascii.eqb_spec c "/") as [->|Hc].
    + destruct (String.eqb_spec url "") as [->|Hu]; [now destruct (Hno "")|].
      cbn [andb]. f_equal. apply IH. intros front ->.
      now apply (Hno (String "/" front)).
    + cbn [andb]. f_equal. apply IH. intros front ->.
      now apply (Hno (String c front)).
  - destruct Hends as (front & ->). apply Hkeep.
Qed.

(** X13. [config.groups] is never empty. With [HIGHRISE_GROUPS] unset or
    empty it is the one-element list [[Number('')]]; as [Number('')] is 0,
    a recording of a posted type that is in group 0 then passes the filter
    whatever [showEveryone] and [visibleTo] are. *)
Theorem groups_unset_is_group_zero
    (Number : string -> Z) (config : Config) (HIGHRISE_GROUPS : option string) :
  parse_groups Number HIGHRISE_GROUPS <> []
  /\ (HIGHRISE_GROUPS = None \/ HIGHRISE_GROUPS = Some "" ->
      parse_groups Number HIGHRISE_GROUPS = [Number ""]
      /\ (Number "" = 0 ->
          groups config = parse_groups Number HIGHRISE_GROUPS ->
          forall (lastCheck : Z) (record : Recording.t),
            includes recordingTypes_keys (Recording.type record) = true ->
            Recording.groupId record = 0 ->
            Recording.createdAt record > lastCheck ->
            filterRecord config lastCheck record = true)).
Proof.
  split.
  - unfold parse_groups. pose proof (split_nonempty "," (or_else HIGHRISE_GROUPS "")) as H.
    destruct (split "," (or_else HIGHRISE_GROUPS "")); [contradiction | discriminate].
  - intros Hunset.
    assert (Hg : parse_groups Number HIGHRISE_GROUPS = [Number ""])
      by (destruct Hunset as [-> | ->]; reflexivity).
    split; [exact Hg|].
    intros Hzero Hgroups lastCheck record Htype Hgroup Hnew.
    unfold filterRecord. rewrite Htype, Hgroups, Hg, Hzero, Hgroup.
    cbn [indexOf]. rewrite Z.eqb_refl.
    rewrite !(proj2 (Z.gtb_lt _ _)) by lia.
    now rewrite orb_true_r.
Qed.

(** X17. The first name in the text of a webhook, [name.split(' ')[0]], is
    the longest prefix of the name that has no space in it: whatever
    follows it in the name is empty or starts with a space. *)
Theorem first_name_is_prefix_before_space (name : string) :
  exists rest,
    name = hd "" (split " " name) +:+ rest
    /\ (forall front back,
          hd "" (split " " name) <> front +:+ String " " back)
    /\ (rest = "" \/ exists rest', rest = String " " rest').
Proof.
  rewrite split_space_hd.
  induction name as [|c name (rest & Hname & Hnone & Hrest)]; cbn [before_space].
  - exists "". split; [reflexivity|]. split; [|now left].
    intros [|c front] back; discriminate.
  - destruct (Ascii.eqb_spec c " ") as [->|Hc].
    + exists (String " " name). split; [reflexivity|]. split; [|right; eauto].
      intros [|c front] back; discriminate.
    + exists rest. split; [rewrite append_cons; now rewrite <- Hname|].
      split; [|exact Hrest].
      intros [|c' front] back; [intros [= Hc' _]; congruence|].
      rewrite append_cons. intros [= _ Heq]. now apply Hnone in Heq.
Qed.

(** ** The further properties at work *)

Lemma sync_error_provenance_witness :
  client_recordings Demo.world_unreachable 50000 = Err (Error "ECONNREFUSED")
  \/ exists data i r,
       client_recordings Demo.world_unreachable 50000 = Ok data
       /\ data !! i = Some r
       /\ filterRecord Demo.config 50000 r = true
       /\ (parseBody Demo.world_unreachable r = Err (Error "ECONNREFUSED")
           \/ exists payload,
                In (Post (slackUrl Demo.config) payload)
                   (snd (sync Demo.config Demo.world_unreachable Demo.user_first 50000))
                /\ request Demo.world_unreachable (slackUrl Demo.config) payload
                   = Err (Error "ECONNREFUSED")).
Proof.
  apply (sync_error_provenance Demo.config Demo.world_unreachable Demo.user_first 50000).
  vm_compute. reflexivity.
Defined.

Lemma posts_only_for_candidates_witness :
  slackUrl Demo.config = slackUrl Demo.config
  /\ exists data i r user s,
       client_recordings Demo.world 50000 = Ok data
       /\ data !! i = Some r
       /\ filterRecord Demo.config 50000 r = true
       /\ client_get Demo.world ("users/" +:+ Recording.authorId r +:+ ".xml") = Ok user
       /\ fst (getSubject Demo.world (Recording.subjectId r)
                 (getSubjectPath (Recording.subjectType r))) = Ok s
       /\ formatWebhook Demo.config Demo.world (Recording.enrich user s r)
          = Called (Ok Demo.email_payload).
Proof.
  apply (posts_only_for_candidates Demo.config Demo.world Demo.user_first 50000).
  vm_compute. do 4 right. left. reflexivity.
Defined.

Lemma posts_at_most_one_per_candidate_witness :
  (length (posted (snd (sync Demo.config Demo.world Demo.user_first 50000)))
   <= length (List.filter (filterRecord Demo.config 50000)
                [Demo.email; Demo.call; Demo.comment]))%nat.
Proof.
  apply (posts_at_most_one_per_candidate Demo.config Demo.world Demo.user_first 50000).
  reflexivity.
Defined.

Lemma requests_bounded_witness :
  (length (snd (sync Demo.config Demo.world Demo.user_first 50000))
   <= 1 + 4 * length (List.filter (filterRecord Demo.config 50000)
                        [Demo.email; Demo.call; Demo.comment]))%nat.
Proof.
  apply (requests_bounded Demo.config Demo.world Demo.user_first 50000).
  reflexivity.
Defined.

Lemma fetched_never_reconsidered_witness :
  filterRecord Demo.config 200000 Demo.comment = false
  /\ filterRecord Demo.config 200000 Demo.email = false.
Proof.
  split.
  - apply (fetched_never_reconsidered Demo.config Demo.world Demo.user_first 50000
             [Demo.email; Demo.call; Demo.comment] 200000 Demo.comment);
      [reflexivity | vm_compute; reflexivity | simpl; auto | simpl; lia].
  - apply (fetched_never_reconsidered Demo.config Demo.world Demo.user_first 50000
             [Demo.email; Demo.call; Demo.comment] 200000 Demo.email);
      [reflexivity | vm_compute; reflexivity | simpl; auto | simpl; lia].
Defined.

Lemma with_trailing_slash_spec_witness :
  with_trailing_slash "https://acme.highrisehq.com/" = "https://acme.highrisehq.com/"
  /\ with_trailing_slash "acme" = "acme/".
Proof.
  destruct (with_trailing_slash_spec "https://acme.highrisehq.com/") as (_ & Hkeep & _).
  destruct (with_trailing_slash_spec "acme") as (_ & _ & Hadd & _).
  split; [apply (Hkeep "https://acme.highrisehq.com"); reflexivity|].
  apply Hadd. intros [|a [|b [|c [|d [|e front]]]]]; discriminate.
Defined.

Lemma groups_unset_is_group_zero_witness :
  groups Cases.config_no_groups = [0]
  /\ filterRecord Cases.config_no_groups 50000 Cases.ungrouped = true.
Proof.
  destruct (groups_unset_is_group_zero Cases.number Cases.config_no_groups None)
    as (_ & Hunset).
  destruct Hunset as (Hg & Hpass); [now left|].
  split; [exact Hg|].
  apply Hpass; [reflexivity | reflexivity | reflexivity | reflexivity | simpl; lia].
Defined.

Lemma sync_succeeds_iff_witness :
  exists data,
    client_recordings Demo.world 50000 = Ok data
    /\ forall i r,
         data !! i = Some r -> filterRecord Demo.config 50000 r = true ->
         exists v,
           outcome (sendWebhook Demo.config Demo.world (Demo.user_first i) r)
           = Called (Ok v).
Proof.
  apply (proj1 (sync_succeeds_iff Demo.config Demo.world Demo.user_first 50000)).
  exists 200000. vm_compute. reflexivity.
Defined.

Lemma candidates_once_oldest_first_witness :
  In 1%nat (filtered Demo.config 50000 [Demo.note; Demo.email; Cases.orphan])
  /\ filtered Demo.config 50000 [Demo.note; Demo.email; Cases.orphan] = [1; 2; 0]%nat.
Proof.
  destruct (candidates_once_oldest_first Demo.config 50000
              [Demo.note; Demo.email; Cases.orphan]) as (_ & _ & Hin).
  split; [|vm_compute; reflexivity].
  apply Hin. exists Demo.email. split; reflexivity.
Defined.

Lemma delivered_when_cycle_succeeds_witness :
  exists payload,
    formatWebhook Demo.config Demo.world (Recording.enrich Demo.ann Demo.acme Demo.email)
    = Called (Ok payload)
    /\ In (Post (slackUrl Demo.config) payload)
          (snd (sync Demo.config Demo.world Demo.user_first 50000)).
Proof.
  apply (delivered_when_cycle_succeeds Demo.config Demo.world Demo.user_first 50000
           [Demo.email; Demo.call; Demo.comment] 200000 0%nat Demo.email).
  - reflexivity.
  - vm_compute. reflexivity.
  - reflexivity.
  - reflexivity.
  - reflexivity.
  - vm_compute. reflexivity.
Defined.

Lemma company_linked_under_people_witness :
  exists payload,
    In (Post (slackUrl Demo.config) payload)
       (requests (sendWebhook Demo.config Demo.world true Demo.email))
    /\ Payload.text payload =
         "Ann shared <https://acme.highrisehq.com/emails/42|an email> about <https://acme.highrisehq.com/people/7|Acme Inc>".
Proof.
  apply (company_linked_under_people Demo.config Demo.world true Demo.email
           Demo.ann Demo.acme "See you on Monday." (Error "404 people/7.xml"));
    reflexivity.
Defined.

Lemma note_posted_verbatim_witness :
  exists payload attachment,
    In (Post (slackUrl Demo.config) payload)
       (requests (sendWebhook Demo.config Demo.world_unparsable true Demo.note))
    /\ Payload.attachments payload = [attachment]
    /\ Attachment.text attachment = "Called back."
    /\ Attachment.fallback attachment = "Called back."
    /\ outcome (sendWebhook Demo.config Demo.world_unparsable true Demo.note)
       = Called (Ok (Some {| statusCode := 200 |})).
Proof.
  destruct (note_posted_verbatim Demo.config Demo.world_unparsable true Demo.note
              Demo.ann Demo.deal)
    as (payload & attachment & Hin & Ha & Ht & Hf & Ho);
    [reflexivity | reflexivity | vm_compute; reflexivity |].
  exists payload, attachment. repeat split; assumption.
Defined.

Lemma first_name_is_prefix_before_space_witness :
  exists rest,
    "Ann Lee" = hd "" (split " " "Ann Lee") +:+ rest
    /\ (forall front back, hd "" (split " " "Ann Lee") <> front +:+ String " " back)
    /\ (rest = "" \/ exists rest', rest = String " " rest').
Proof. apply (first_name_is_prefix_before_space "Ann Lee"). Defined.

(** Two postable recordings fetched newest first, and a comment whose
    subject is not found: the older one is posted first. *)
Example cycle_posts_oldest_first :
  map stamped (posted (snd (sync Demo.config Cases.world_two Demo.user_first 50000)))
  = [100000; 120000]
  /\ fst (sync Demo.config Cases.world_two Demo.user_first 50000) = Called (Ok 150000).
Proof. split; vm_compute; reflexivity. Qed.
